(** * GrumpTech garage door: sensors, door-state fusion and actuation

  A shallow embedding of [sensorBase.js], [sonarSensor.js], [proxSensor.js]
  and [doorCntrl.js].  JavaScript numbers are IEEE-754 binary64 values
  ([PrimFloat.float]); objects parsed from the configuration file are
  property lists; timers ([setTimeout] / [clearTimeout]) live in an explicit
  queue with a virtual clock in milliseconds. *)

From Stdlib Require Import Floats ZArith List String Bool Lia.
Import ListNotations.

Set Warnings "-inexact-float,-register-all".
Local Open Scope string_scope.

(* ===================================================================== *)
(** ** JavaScript values *)
(* ===================================================================== *)

Module JS.

(** Values found in a parsed configuration.  An object is the list of its
    own properties; the first binding of a key is the property.  Objects are
    data only: [hasOwnProperty] is the one inherited from
    [Object.prototype]. *)
Inductive value : Type :=
| Undefined
| Null
| Bool (b : bool)
| Num (x : float)
| Str (s : string)
| Obj (props : list (string * value))
| Arr (items : list value).

Definition object : Type := list (string * value).

Fixpoint lookup (o : object) (k : string) : option value :=
  match o with
  | [] => None
  | (k', v) :: o' => if String.eqb k' k then Some v else lookup o' k
  end.

(** [o.hasOwnProperty(k)] *)
Definition hasOwnProperty (o : object) (k : string) : bool :=
  match lookup o k with Some _ => true | None => false end.

(** [o.k]; a missing property reads as [undefined]. *)
Definition get (o : object) (k : string) : value :=
  match lookup o k with Some v => v | None => Undefined end.

(** [typeof v] *)
Definition typeof (v : value) : string :=
  match v with
  | Undefined => "undefined"
  | Null => "object"
  | Bool _ => "boolean"
  | Num _ => "number"
  | Str _ => "string"
  | Obj _ => "object"
  | Arr _ => "object"
  end.

(** [typeof(v) === t] *)
Definition typeof_is (v : value) (t : string) : bool := String.eqb (typeof v) t.

(** Truthiness, as used by [v ? a : b] and [if (v)]. *)
Definition truthy (v : value) : bool :=
  match v with
  | Undefined | Null => false
  | Bool b => b
  | Num x => negb (PrimFloat.eqb x 0 || PrimFloat.is_nan x)
  | Str s => negb (String.eqb s "")
  | Obj _ | Arr _ => true
  end.

(** [a === b] on primitives.  Two object values in a configuration are
    distinct references, hence never strictly equal. *)
Definition strict_equals (a b : value) : bool :=
  match a, b with
  | Undefined, Undefined => true
  | Null, Null => true
  | Bool x, Bool y => Bool.eqb x y
  | Num x, Num y => PrimFloat.eqb x y
  | Str x, Str y => String.eqb x y
  | _, _ => false
  end.

Section Coercion.
(** The numeric reading of a string, and of an object or array through its
    string form ([StringToNumber] after [ToPrimitive]); it is the runtime's,
    and the model is parametric in it. *)
Variable text_to_number : value -> float.

(** [ToNumber(v)] *)
Definition ToNumber (v : value) : float :=
  match v with
  | Undefined => PrimFloat.nan
  | Null => 0%float
  | Bool true => 1%float
  | Bool false => 0%float
  | Num x => x
  | Str _ | Obj _ | Arr _ => text_to_number v
  end.

(** [a * b]: always a number. *)
Definition mul (a b : value) : float :=
  PrimFloat.mul (ToNumber a) (ToNumber b).

(** [x >= v] and [x <= v] for a number [x]: the other operand is converted
    with [ToNumber]; a comparison with NaN is false. *)
Definition num_ge (x : float) (v : value) : bool := PrimFloat.leb (ToNumber v) x.

Definition num_le (x : float) (v : value) : bool := PrimFloat.leb x (ToNumber v).

End Coercion.

(** Relational operators between two values already known to be numbers
    (the [typeof] guards to their left short-circuit otherwise). *)
Definition ge (a b : value) : bool :=
  match a, b with
  | Num x, Num y => PrimFloat.leb y x
  | _, _ => false
  end.

Definition gt (a b : value) : bool :=
  match a, b with
  | Num x, Num y => PrimFloat.ltb y x
  | _, _ => false
  end.

(** [s.toUpperCase()] on ASCII text. *)
Definition upper_char (c : Ascii.ascii) : Ascii.ascii :=
  let n := Ascii.nat_of_ascii c in
  if Nat.leb 97 n && Nat.leb n 122 then Ascii.ascii_of_nat (n - 32) else c.

Fixpoint toUpperCase (s : string) : string :=
  match s with
  | EmptyString => EmptyString
  | String c r => String (upper_char c) (toUpperCase r)
  end.

End JS.

(* ===================================================================== *)
(** ** sensorBase.js *)
(* ===================================================================== *)

Module SensorBase.

Inductive SENSOR_RESULT : Type := UNKNOWN | UNDETECTED | DETECTED.

Definition SENSOR_RESULT_eqb (a b : SENSOR_RESULT) : bool :=
  match a, b with
  | UNKNOWN, UNKNOWN | UNDETECTED, UNDETECTED | DETECTED, DETECTED => true
  | _, _ => false
  end.

Record t : Type := mk {
  _id : JS.value;
  _initialized : bool;
  _result : SENSOR_RESULT
}.

(** [constructor(identifier)] *)
Definition constructor (identifier : JS.value) : t :=
  {| _id := identifier; _initialized := false; _result := UNKNOWN |}.

Definition Result (s : t) : SENSOR_RESULT := _result s.

Definition set_initialized (b : bool) (s : t) : t :=
  {| _id := _id s; _initialized := b; _result := _result s |}.

(** [_setResult(newResult)]: the cached result is replaced only when it
    differs, and only then is a ['result_changed'] notification handed to
    [setTimeout(.., 0)]; the second component is that notification
    [(oldResult, newResult)], if any. *)
Definition _setResult (newResult : SENSOR_RESULT) (s : t)
  : t * option (SENSOR_RESULT * SENSOR_RESULT) :=
  let oldResult := _result s in
  if negb (SENSOR_RESULT_eqb oldResult newResult) then
    ({| _id := _id s; _initialized := _initialized s; _result := newResult |},
     Some (oldResult, newResult))
  else (s, None).

End SensorBase.

(* ===================================================================== *)
(** ** The timer queue of the event loop *)
(* ===================================================================== *)

Module EventLoop.

Definition TIMEOUT_MAX : float := 2147483647%float.

(** Integer part of a finite number. *)
Definition trunc (x : float) : Z :=
  match Prim2SF x with
  | S754_finite s m e =>
      let a := Z.shiftl (Zpos m) e in if s then (- a)%Z else a
  | _ => 0%Z
  end.

(** The delay a timer really gets: a delay outside [1, TIMEOUT_MAX] (NaN
    included) is replaced by 1 ms, and a fractional delay is truncated. *)
Definition msecs (after : float) : Z :=
  if PrimFloat.leb 1 after && PrimFloat.leb after TIMEOUT_MAX
  then trunc after else 1%Z.

Section Timers.
(** [C] is the type of the callbacks (closure and arguments) a component
    hands to [setTimeout]. *)
Variable C : Type.

Record Timer : Type := mkTimer { tid : nat; due : Z; cb : C }.

(** [now] is the clock in milliseconds, [pending] the armed timers in the
    order they were armed. *)
Record t : Type := mk { now : Z; nextId : nat; pending : list Timer }.

(** [setTimeout(cb, after)]: the handle returned, and the queue. *)
Definition setTimeout (c : C) (after : float) (l : t) : nat * t :=
  (nextId l,
   {| now := now l; nextId := S (nextId l);
      pending := pending l ++ [mkTimer (nextId l) (now l + msecs after)%Z c] |}).

(** [clearTimeout(id)]; clearing a timer that has fired or was cleared
    already does nothing. *)
Definition clearTimeout (id : nat) (l : t) : t :=
  {| now := now l; nextId := nextId l;
     pending := filter (fun x => negb (Nat.eqb (tid x) id)) (pending l) |}.

(** [if (id != undefined) clearTimeout(id)] *)
Definition clearIfDefined (id : option nat) (l : t) : t :=
  match id with Some i => clearTimeout i l | None => l end.

(** The timer that fires first: the least due time, and among equal due
    times the one armed first. *)
Fixpoint earliest (ts : list Timer) : option Timer :=
  match ts with
  | [] => None
  | x :: r =>
      match earliest r with
      | Some y => if (due y <? due x)%Z then Some y else Some x
      | None => Some x
      end
  end.

(** Take the next timer due at or before [limit] out of the queue and move
    the clock to its due time. *)
Definition next (limit : Z) (l : t) : option (Timer * t) :=
  match earliest (pending l) with
  | Some x =>
      if (due x <=? limit)%Z then
        Some (x, {| now := Z.max (now l) (due x); nextId := nextId l;
                    pending := filter (fun y => negb (Nat.eqb (tid y) (tid x))) (pending l) |})
      else None
  | None => None
  end.

(** Let the clock reach [limit] (it never runs backwards). *)
Definition advance (limit : Z) (l : t) : t :=
  {| now := Z.max (now l) limit; nextId := nextId l; pending := pending l |}.

End Timers.

Arguments mkTimer {C} _ _ _.
Arguments tid {C} _.
Arguments due {C} _.
Arguments cb {C} _.
Arguments mk {C} _ _ _.
Arguments now {C} _.
Arguments nextId {C} _.
Arguments pending {C} _.
Arguments setTimeout {C} _ _ _.
Arguments clearTimeout {C} _ _.
Arguments clearIfDefined {C} _ _.
Arguments earliest {C} _.
Arguments next {C} _ _.
Arguments advance {C} _ _.

End EventLoop.

(** What a constructor call ends in: the new object, or an exception. *)
Inductive completion (A : Type) : Type :=
| Normal (a : A)
| Throw (message : string).

Arguments Normal {A} _.
Arguments Throw {A} _.

(* ===================================================================== *)
(** ** sonarSensor.js *)
(* ===================================================================== *)

Module SonarSensor.

Inductive _SONAR_STATE : Type := INACTIVE | ARMED | PENDING.

Definition _NOMINAL_SPEED_OF_SOUND : float := 343.0%float.
Definition _MINIMUM_SONAR_POLLING_INTERVAL : float := 0.25%float.
Definition _DEFAULT_SONAR_POLLING_INTERVAL : float := 5.0%float.
Definition _DISTANCE_THRESHOLD_FOR_CHANGE_NOTIFICATION : float := 0.08%float.
Definition _INVALID_DISTANCE : float := (-1000.0)%float.

Record t : Type := mk {
  base : SensorBase.t;
  _sonarPingInterval : float;
  _distanceThreshold : JS.value;
  _gpioTriggerOut : JS.value;
  _gpioEchoIn : JS.value;
  _detectMin : JS.value;
  _detectMax : JS.value;
  _sonarPingTriggerId : option nat;
  _lastDistanceReading : float;
  _referenceDistanceReading : float;
  _referenceTime : float;
  _distanceAge : float;
  _sonarState : _SONAR_STATE
}.

Definition set_base (b : SensorBase.t) (s : t) : t :=
  mk b (_sonarPingInterval s) (_distanceThreshold s) (_gpioTriggerOut s)
     (_gpioEchoIn s) (_detectMin s) (_detectMax s) (_sonarPingTriggerId s)
     (_lastDistanceReading s) (_referenceDistanceReading s) (_referenceTime s)
     (_distanceAge s) (_sonarState s).

(** [static ValidateConfiguration(configuration)] *)
Definition ValidateConfiguration (configuration : JS.object) : bool :=
  let has := JS.hasOwnProperty configuration in
  let get := JS.get configuration in
  (negb (has "polling_interval")
   || (JS.typeof_is (get "polling_interval") "number"
       && JS.ge (get "polling_interval") (JS.Num _MINIMUM_SONAR_POLLING_INTERVAL)))
  && (negb (has "distance_threshold_change_notification")
      || JS.typeof_is (get "distance_threshold_change_notification") "number")
  && (has "trigger_out" && JS.typeof_is (get "trigger_out") "number")
  && (has "echo_in" && JS.typeof_is (get "echo_in") "number")
  && (has "detect_threshold_min" && JS.typeof_is (get "detect_threshold_min") "number")
  && (has "detect_threshold_max" && JS.typeof_is (get "detect_threshold_max") "number")
  && JS.gt (get "detect_threshold_max") (get "detect_threshold_min").

(** [get Active()] *)
Definition Active (s : t) : bool :=
  match _sonarPingTriggerId s with Some _ => true | None => false end.

(** [this.Active = false]: the ping interval, if one runs, is cleared
    ([clearInterval] returns [undefined], which is stored back), and the
    reset block runs. *)
Definition set_Active_false (s : t) : t :=
  mk (base s) (_sonarPingInterval s) (_distanceThreshold s) (_gpioTriggerOut s)
     (_gpioEchoIn s) (_detectMin s) (_detectMax s)
     None _INVALID_DISTANCE _INVALID_DISTANCE 0%float 0%float INACTIVE.

(** [_initialize()] *)
Definition _initialize (s : t) : t :=
  set_Active_false (set_base (SensorBase.set_initialized false (base s)) s).

(** [Terminate()] *)
Definition Terminate (s : t) : t :=
  let s1 := set_Active_false s in
  set_base (SensorBase.set_initialized false (base s1)) s1.

(** The two notifications handed to [setTimeout(.., 0)]. *)
Inductive Callback : Type :=
| emit_distance_changed (oldDistance newDistance : float)
| emit_result_changed (oldResult newResult : SensorBase.SENSOR_RESULT).

Record World : Type := mkWorld {
  loop : EventLoop.t Callback;
  sensor : t
}.

(** The ['result_changed'] notifications handed to [setTimeout] and not
    yet delivered. *)
Definition queued_results (w : World)
  : list (SensorBase.SENSOR_RESULT * SensorBase.SENSOR_RESULT) :=
  flat_map (fun x => match EventLoop.cb x with
                     | emit_result_changed o n => [(o, n)]
                     | _ => []
                     end) (EventLoop.pending (loop w)).

Section Runtime.
Variable text_to_number : JS.value -> float.

(** [constructor(identifier, configuration)].  The value returned by
    [ValidateConfiguration] is dropped, so every path ends normally. *)
Definition constructor (identifier : JS.value) (configuration : JS.object)
  : completion t :=
  let has := JS.hasOwnProperty configuration in
  let get := JS.get configuration in
  let _dropped := ValidateConfiguration configuration in
  Normal
    (_initialize
       (mk (SensorBase.constructor identifier)
           (JS.mul text_to_number
              (if has "polling_interval" then get "polling_interval"
               else JS.Num _DEFAULT_SONAR_POLLING_INTERVAL)
              (JS.Num 1000.0%float))
           (if has "polling_interval"
            then get "distance_threshold_change_notification"
            else JS.Num _DISTANCE_THRESHOLD_FOR_CHANGE_NOTIFICATION)
           (get "trigger_out") (get "echo_in")
           (get "detect_threshold_min") (get "detect_threshold_max")
           None 0%float 0%float 0%float 0%float INACTIVE)).

(** [_performDistanceMeasurement(elapsedTime, measurementCompleteTime)] *)
Definition _performDistanceMeasurement
  (elapsedTime measurementCompleteTime : float) (w : World) : World :=
  let DISTANCE_FACTOR := 2.0%float in
  let s := sensor w in
  let lastDistanceReading :=
    ((_NOMINAL_SPEED_OF_SOUND * (elapsedTime / 1000.0)) / DISTANCE_FACTOR)%float in
  let changed :=
    JS.num_ge text_to_number
      (PrimFloat.abs (lastDistanceReading - _referenceDistanceReading s)%float)
      (_distanceThreshold s) in
  let loop1 :=
    if changed then
      snd (EventLoop.setTimeout
             (emit_distance_changed (_referenceDistanceReading s) lastDistanceReading)
             0%float (loop w))
    else loop w in
  let referenceDistanceReading :=
    if changed then lastDistanceReading else _referenceDistanceReading s in
  let newResult :=
    if JS.num_ge text_to_number lastDistanceReading (_detectMin s)
       && JS.num_le text_to_number lastDistanceReading (_detectMax s)
    then SensorBase.DETECTED else SensorBase.UNDETECTED in
  let '(base1, notification) := SensorBase._setResult newResult (base s) in
  let loop2 :=
    match notification with
    | Some (resultOld, resultNew) =>
        snd (EventLoop.setTimeout (emit_result_changed resultOld resultNew)
               0%float loop1)
    | None => loop1
    end in
  {| loop := loop2;
     sensor :=
       mk base1 (_sonarPingInterval s) (_distanceThreshold s) (_gpioTriggerOut s)
          (_gpioEchoIn s) (_detectMin s) (_detectMax s) (_sonarPingTriggerId s)
          lastDistanceReading referenceDistanceReading (_referenceTime s)
          measurementCompleteTime (_sonarState s) |}.

End Runtime.

End SonarSensor.

(* ===================================================================== *)
(** ** proxSensor.js *)
(* ===================================================================== *)

Module ProximitySwitchSensor.

Definition NORMALLY_OPEN : bool := false.
Definition NORMALLY_CLOSED : bool := true.
Definition _DEFAULT_PROX_SWITCH_DEBOUNCE : float := 1.0%float.
Definition _DEFAULT_PROX_SWITCH_MODE : bool := NORMALLY_CLOSED.

(** [_debounceTimerIdDoorState] is the property [_stateChange] creates on
    its first run; it is [undefined] until then. *)
Record t : Type := mk {
  base : SensorBase.t;
  _switchDebounce : float;
  _switchMode : bool;
  _gpioDetectIn : JS.value;
  _debounceTimerIdSwitchState : option nat;
  _debounceTimerIdDoorState : option nat
}.

Definition set_base (b : SensorBase.t) (s : t) : t :=
  mk b (_switchDebounce s) (_switchMode s) (_gpioDetectIn s)
     (_debounceTimerIdSwitchState s) (_debounceTimerIdDoorState s).

(** [static ValidateConfiguration(configuration)] *)
Definition ValidateConfiguration (configuration : JS.object) : bool :=
  let has := JS.hasOwnProperty configuration in
  let get := JS.get configuration in
  (negb (has "debounce_time")
   || (JS.typeof_is (get "debounce_time") "number"
       && JS.ge (get "debounce_time") (JS.Num 1.0%float)))
  && (negb (has "mode") || JS.typeof_is (get "mode") "boolean")
  && (has "detect_in" && JS.typeof_is (get "detect_in") "number").

(** [_convertSwitchReadToDetected(rawReadValue)] *)
Definition _convertSwitchReadToDetected (s : t) (rawReadValue : bool)
  : SensorBase.SENSOR_RESULT :=
  let correctedRawRead :=
    if Bool.eqb (_switchMode s) NORMALLY_CLOSED then rawReadValue
    else negb rawReadValue in
  if correctedRawRead then SensorBase.DETECTED else SensorBase.UNDETECTED.

(** What the sensor hands to [setTimeout]: the debounced reading, and the
    ['result_changed'] notification. *)
Inductive Callback : Type :=
| update_switch_state (reading : bool)
| emit_result_changed (oldResult newResult : SensorBase.SENSOR_RESULT).

(** [listening]: the sensor's handler is registered for the GPIO ['change']
    event.  [notified]: the ['result_changed'] notifications delivered so
    far, oldest first. *)
Record World : Type := mkWorld {
  loop : EventLoop.t Callback;
  sensor : t;
  listening : bool;
  notified : list (SensorBase.SENSOR_RESULT * SensorBase.SENSOR_RESULT)
}.

Definition set_loop (l : EventLoop.t Callback) (w : World) : World :=
  mkWorld l (sensor w) (listening w) (notified w).

Definition set_sensor (s : t) (w : World) : World :=
  mkWorld (loop w) s (listening w) (notified w).

(** [_updateSwitchState(rawSwitchReading)] *)
Definition _updateSwitchState (rawSwitchReading : bool) (w : World) : World :=
  let s := sensor w in
  let '(base1, notification) :=
    SensorBase._setResult (_convertSwitchReadToDetected s rawSwitchReading) (base s) in
  let loop1 :=
    match notification with
    | Some (resultOld, resultNew) =>
        snd (EventLoop.setTimeout (emit_result_changed resultOld resultNew)
               0%float (loop w))
    | None => loop w
    end in
  mkWorld loop1 (set_base base1 s) (listening w) (notified w).

(** [_stateChange(channel, value)] *)
Definition _stateChange (channel : JS.value) (value : bool) (w : World) : World :=
  let s := sensor w in
  if JS.strict_equals channel (_gpioDetectIn s) then
    let loop1 := EventLoop.clearIfDefined (_debounceTimerIdSwitchState s) (loop w) in
    let '(id, loop2) :=
      EventLoop.setTimeout (update_switch_state value) (_switchDebounce s) loop1 in
    mkWorld loop2
      (mk (base s) (_switchDebounce s) (_switchMode s) (_gpioDetectIn s)
          (_debounceTimerIdSwitchState s) (Some id))
      (listening w) (notified w)
  else w.

(** [Start()]; [switchReadResult] is what the set-up and first read of the
    input line give, [None] when either is rejected. *)
Definition Start (switchReadResult : option bool) (w : World) : World :=
  let w0 := set_sensor (set_base (SensorBase.set_initialized false (base (sensor w))) (sensor w)) w in
  match switchReadResult with
  | Some r =>
      let w1 := _updateSwitchState r w0 in
      mkWorld (loop w1)
        (set_base (SensorBase.set_initialized true (base (sensor w1))) (sensor w1))
        true (notified w1)
  | None => w0
  end.

(** [Terminate()] *)
Definition Terminate (w : World) : World :=
  let s := sensor w in
  mkWorld (EventLoop.clearIfDefined (_debounceTimerIdSwitchState s) (loop w))
    (set_base (SensorBase.set_initialized false (base s)) s)
    false (notified w).

(** A ['change'] event of the GPIO library reaches the handler only while
    it is registered. *)
Definition gpio_change (channel : JS.value) (value : bool) (w : World) : World :=
  if listening w then _stateChange channel value w else w.

(** Running a timer's callback. *)
Definition fire (c : Callback) (w : World) : World :=
  match c with
  | update_switch_state reading => _updateSwitchState reading w
  | emit_result_changed resultOld resultNew =>
      mkWorld (loop w) (sensor w) (listening w) (notified w ++ [(resultOld, resultNew)])
  end.

(** The event loop up to time [limit]: fire the due timers in order, then
    let the clock reach [limit].  [None]: [fuel] was too small. *)
Fixpoint run (fuel : nat) (limit : Z) (w : World) : option World :=
  match fuel with
  | O => None
  | S fuel' =>
      match EventLoop.next limit (loop w) with
      | Some (x, l) => run fuel' limit (fire (EventLoop.cb x) (set_loop l w))
      | None => Some (set_loop (EventLoop.advance limit (loop w)) w)
      end
  end.

(** Edges [(time, channel, level)] in order of arrival: the timers due by
    the time of an edge fire before it is handled. *)
Fixpoint edges (fuel : nat) (es : list (Z * JS.value * bool)) (w : World)
  : option World :=
  match es with
  | [] => Some w
  | (time, channel, value) :: es' =>
      match run fuel time w with
      | Some w' => edges fuel es' (gpio_change channel value w')
      | None => None
      end
  end.

Section Runtime.
Variable text_to_number : JS.value -> float.

(** [constructor(identifier, configuration)].  The value returned by
    [ValidateConfiguration] is dropped, so every path ends normally. *)
Definition constructor (identifier : JS.value) (configuration : JS.object)
  : completion t :=
  let has := JS.hasOwnProperty configuration in
  let get := JS.get configuration in
  let _dropped := ValidateConfiguration configuration in
  Normal
    (mk (SensorBase.constructor identifier)
        (JS.mul text_to_number
           (if has "debounce_time" then get "debounce_time"
            else JS.Num _DEFAULT_PROX_SWITCH_DEBOUNCE)
           (JS.Num 1000.0%float))
        (if has "mode"
         then (if JS.truthy (get "mode") then NORMALLY_CLOSED else NORMALLY_OPEN)
         else _DEFAULT_PROX_SWITCH_MODE)
        (get "detect_in")
        None None).

End Runtime.

(** A sensor that has just been constructed, in an idle event loop at
    time [time]. *)
Definition fresh (time : Z) (s : t) : World :=
  mkWorld (EventLoop.mk time 0 []) s false [].

End ProximitySwitchSensor.

(* ===================================================================== *)
(** ** doorCntrl.js *)
(* ===================================================================== *)

Module DoorController.

Inductive DOOR_STATE : Type := UNKNOWN | OPEN | OPENING | CLOSING | CLOSED.

Definition DOOR_STATE_eqb (a b : DOOR_STATE) : bool :=
  match a, b with
  | UNKNOWN, UNKNOWN | OPEN, OPEN | OPENING, OPENING
  | CLOSING, CLOSING | CLOSED, CLOSED => true
  | _, _ => false
  end.

Definition _DOOR_CNTRL_SWITCH_DEBOUNCE : float := 500%float.
Definition _DOOR_CTRL_REQ_TIME : float := 100%float.
Definition _DOOR_ACTIVATION_TIMEOUT : float := 30000%float.
Definition _DOOR_TOTAL_IDENTIFICATION_TIMEOUT : float := 5000%float.
Definition _DOOR_IDENTIFICATION_TOGGLE_TIMEOUT : float := 100%float.

(** A detection sensor of either class; the door uses what [SensorBase]
    offers. *)
Inductive Sensor : Type :=
| Sonar (s : SonarSensor.t)
| Prox (p : ProximitySwitchSensor.t).

Definition sensor_base (x : Sensor) : SensorBase.t :=
  match x with
  | Sonar s => SonarSensor.base s
  | Prox p => ProximitySwitchSensor.base p
  end.

Definition sensor_set_base (b : SensorBase.t) (x : Sensor) : Sensor :=
  match x with
  | Sonar s => Sonar (SonarSensor.set_base b s)
  | Prox p => Prox (ProximitySwitchSensor.set_base b p)
  end.

(** [sensor.Result] *)
Definition sensor_Result (x : Sensor) : SensorBase.SENSOR_RESULT :=
  SensorBase.Result (sensor_base x).

(** [sensor.Terminate()], as far as the sensor object goes (the timers a
    sensor owns are in the sensor's own event-loop model). *)
Definition sensor_Terminate (x : Sensor) : Sensor :=
  match x with
  | Sonar s => Sonar (SonarSensor.Terminate s)
  | Prox p =>
      Prox (ProximitySwitchSensor.set_base
              (SensorBase.set_initialized false (ProximitySwitchSensor.base p)) p)
  end.

Record Door : Type := mkDoor {
  _name : JS.value;
  _gpioChanStateIndicator : JS.value;
  _gpioChanCtrlRequest : JS.value;
  _gpioManualCtrlRequest : JS.value;
  _openSensor : Sensor;
  _closedSensor : Sensor;
  _currentDoorState : DOOR_STATE;
  _targetDoorState : DOOR_STATE;
  _doorLocked : JS.value;
  _debounceTimerIdDoorCntrl : option nat;
  _doorActivationWatchdogId : option nat;
  _initialized : bool
}.

Definition DoorState (d : Door) : DOOR_STATE := _currentDoorState d.

Definition DoorOpen (d : Door) : bool := DOOR_STATE_eqb OPEN (DoorState d).

Definition DoorClosed (d : Door) : bool := DOOR_STATE_eqb CLOSED (DoorState d).

Definition DoorLocked (d : Door) : JS.value := _doorLocked d.

Definition Initialized (d : Door) : bool := _initialized d.

Definition set_currentDoorState (x : DOOR_STATE) (d : Door) : Door :=
  mkDoor (_name d) (_gpioChanStateIndicator d) (_gpioChanCtrlRequest d)
    (_gpioManualCtrlRequest d) (_openSensor d) (_closedSensor d)
    x (_targetDoorState d) (_doorLocked d)
    (_debounceTimerIdDoorCntrl d) (_doorActivationWatchdogId d) (_initialized d).

Definition set_doorLocked (x : JS.value) (d : Door) : Door :=
  mkDoor (_name d) (_gpioChanStateIndicator d) (_gpioChanCtrlRequest d)
    (_gpioManualCtrlRequest d) (_openSensor d) (_closedSensor d)
    (_currentDoorState d) (_targetDoorState d) x
    (_debounceTimerIdDoorCntrl d) (_doorActivationWatchdogId d) (_initialized d).

Definition set_debounceTimerIdDoorCntrl (x : option nat) (d : Door) : Door :=
  mkDoor (_name d) (_gpioChanStateIndicator d) (_gpioChanCtrlRequest d)
    (_gpioManualCtrlRequest d) (_openSensor d) (_closedSensor d)
    (_currentDoorState d) (_targetDoorState d) (_doorLocked d)
    x (_doorActivationWatchdogId d) (_initialized d).

Definition set_doorActivationWatchdogId (x : option nat) (d : Door) : Door :=
  mkDoor (_name d) (_gpioChanStateIndicator d) (_gpioChanCtrlRequest d)
    (_gpioManualCtrlRequest d) (_openSensor d) (_closedSensor d)
    (_currentDoorState d) (_targetDoorState d) (_doorLocked d)
    (_debounceTimerIdDoorCntrl d) x (_initialized d).

Definition set_initialized (x : bool) (d : Door) : Door :=
  mkDoor (_name d) (_gpioChanStateIndicator d) (_gpioChanCtrlRequest d)
    (_gpioManualCtrlRequest d) (_openSensor d) (_closedSensor d)
    (_currentDoorState d) (_targetDoorState d) (_doorLocked d)
    (_debounceTimerIdDoorCntrl d) (_doorActivationWatchdogId d) x.

Definition set_sensors (o c : Sensor) (d : Door) : Door :=
  mkDoor (_name d) (_gpioChanStateIndicator d) (_gpioChanCtrlRequest d)
    (_gpioManualCtrlRequest d) o c
    (_currentDoorState d) (_targetDoorState d) (_doorLocked d)
    (_debounceTimerIdDoorCntrl d) (_doorActivationWatchdogId d) (_initialized d).

(** [set DoorLocked(locked)] *)
Definition DoorLocked_set (locked : JS.value) (d : Door) : Door :=
  if JS.typeof_is locked "boolean" then set_doorLocked locked d else d.

(** [_determineDoorState()]: the local [doorState] starts as [UNKNOWN] and
    goes through the two [if] chains of the source. *)
Definition _determineDoorState (d : Door) : DOOR_STATE :=
  let doorState := UNKNOWN in
  let openResult := sensor_Result (_openSensor d) in
  let closedResult := sensor_Result (_closedSensor d) in
  let same := SensorBase.SENSOR_RESULT_eqb in
  let doorState :=
    if same openResult SensorBase.UNKNOWN && same closedResult SensorBase.UNKNOWN
    then UNKNOWN
    else if same openResult SensorBase.UNKNOWN && same closedResult SensorBase.UNDETECTED
    then OPEN
    else if same openResult SensorBase.UNKNOWN && same closedResult SensorBase.DETECTED
    then CLOSED
    else if same openResult SensorBase.UNDETECTED && same closedResult SensorBase.UNKNOWN
    then CLOSED
    else if same openResult SensorBase.UNDETECTED && same closedResult SensorBase.UNDETECTED
    then
      match DoorState d with
      | OPEN => CLOSING
      | CLOSED => OPENING
      | UNKNOWN => UNKNOWN
      | OPENING | CLOSING => doorState
      end
    else if same openResult SensorBase.UNDETECTED && same closedResult SensorBase.DETECTED
    then CLOSED
    else doorState in
  let doorState :=
    if same openResult SensorBase.DETECTED && same closedResult SensorBase.UNKNOWN
    then OPEN
    else if same openResult SensorBase.DETECTED && same closedResult SensorBase.UNDETECTED
    then OPEN
    else if same openResult SensorBase.DETECTED && same closedResult SensorBase.DETECTED
    then UNKNOWN
    else doorState in
  doorState.

(** *** Construction *)

(** The map [requiredSensorsIdentified]: its ['OPEN'] and ['CLOSE'] entries. *)
Definition required : Type := (bool * bool)%type.

(** [if (map.get(key) != undefined) map.set(key, true)] *)
Definition identify (key : string) (m : required) : required :=
  if String.eqb key "OPEN" then (true, snd m)
  else if String.eqb key "CLOSE" then (fst m, true)
  else m.

Definition text_of (v : JS.value) : string :=
  match v with JS.Str s => s | _ => "" end.

(** The callback given to [configuration.every] in
    [_validateDetectionSensorConfig]: the verdict on one item, and the map
    after it.  An item or a [config] node that is not a plain object has
    none of the properties asked for (or makes the property access throw):
    the verdict is [false] either way. *)
Definition validate_item (configItem : JS.value) (m : required) : bool * required :=
  match configItem with
  | JS.Obj item =>
      let has := JS.hasOwnProperty item in
      let get := JS.get item in
      let configItemValid :=
        (has "id" && JS.typeof_is (get "id") "string")
        && (has "class" && JS.typeof_is (get "class") "string")
        && (has "function" && JS.typeof_is (get "function") "string")
        && (has "config" && JS.typeof_is (get "config") "object") in
      if configItemValid then
        let configItemValid :=
          if JS.strict_equals (get "class") (JS.Str "SonarSensor") then
            match get "config" with
            | JS.Obj c => SonarSensor.ValidateConfiguration c
            | _ => false
            end
          else if JS.strict_equals (get "class") (JS.Str "ProximitySwitchSensor") then
            match get "config" with
            | JS.Obj c => ProximitySwitchSensor.ValidateConfiguration c
            | _ => false
            end
          else false in
        if configItemValid
        then (true, identify (JS.toUpperCase (text_of (get "function"))) m)
        else (false, m)
      else (false, m)
  | _ => (false, m)
  end.

(** [Array.prototype.every] with that callback: it stops at the first item
    rejected. *)
Fixpoint every_item (configuration : list JS.value) (m : required) : bool * required :=
  match configuration with
  | [] => (true, m)
  | configItem :: rest =>
      let '(ok, m') := validate_item configItem m in
      if ok then every_item rest m' else (false, m')
  end.

(** [_validateDetectionSensorConfig(configuration)] *)
Definition _validateDetectionSensorConfig (configuration : list JS.value) : bool :=
  let '(configValid, m) := every_item configuration (false, false) in
  configValid && fst m && snd m.

(** The validity test at the head of the constructor.  A [detect_sensors]
    value that is not an array fails the test or makes [length] / [every]
    throw; the constructor throws either way. *)
Definition configValid (configuration : JS.object) : bool :=
  let has := JS.hasOwnProperty configuration in
  let get := JS.get configuration in
  (has "name" && JS.typeof_is (get "name") "string")
  && (has "state_indicator" && JS.typeof_is (get "state_indicator") "number")
  && (has "control_request" && JS.typeof_is (get "control_request") "number")
  && (has "manual_control_reqest" && JS.typeof_is (get "manual_control_reqest") "number")
  && ((has "soft_locked" && JS.typeof_is (get "soft_locked") "boolean")
      || negb (has "soft_locked"))
  && (has "detect_sensors" && JS.typeof_is (get "detect_sensors") "object"
      && match get "detect_sensors" with
         | JS.Arr items => Nat.leb 2 (List.length items)
         | _ => false
         end)
  && match get "detect_sensors" with
     | JS.Arr items => _validateDetectionSensorConfig items
     | _ => false
     end.

Section Runtime.
Variable text_to_number : JS.value -> float.

Definition config_of (v : JS.value) : JS.object :=
  match v with JS.Obj c => c | _ => [] end.

(** [_createDetectionSensor(configuration, sensor_function)]: the first
    item with that function decides.  An item of an unknown class would
    leave [sensor] at [null]; validation has excluded it, and the model
    makes it a failure. *)
Fixpoint _createDetectionSensor (configuration : list JS.value)
  (sensor_function : string) : completion Sensor :=
  match configuration with
  | [] => Throw "Unable to create detection sensor"
  | configItem :: rest =>
      let item := config_of configItem in
      if String.eqb (JS.toUpperCase (text_of (JS.get item "function")))
                    (JS.toUpperCase sensor_function)
      then
        if JS.strict_equals (JS.get item "class") (JS.Str "SonarSensor") then
          match SonarSensor.constructor text_to_number (JS.get item "id")
                  (config_of (JS.get item "config")) with
          | Normal s => Normal (Sonar s)
          | Throw e => Throw e
          end
        else if JS.strict_equals (JS.get item "class") (JS.Str "ProximitySwitchSensor") then
          match ProximitySwitchSensor.constructor text_to_number (JS.get item "id")
                  (config_of (JS.get item "config")) with
          | Normal p => Normal (Prox p)
          | Throw e => Throw e
          end
        else Throw "null sensor"
      else _createDetectionSensor rest sensor_function
  end.

(** [constructor(configuration)] *)
Definition constructor (configuration : JS.object) : completion Door :=
  let has := JS.hasOwnProperty configuration in
  let get := JS.get configuration in
  if negb (configValid configuration) then
    Throw "DoorController invalid configuration"
  else
    let detect_sensors :=
      match get "detect_sensors" with JS.Arr items => items | _ => [] end in
    match _createDetectionSensor detect_sensors "OPEN" with
    | Throw e => Throw e
    | Normal openSensor =>
        match _createDetectionSensor detect_sensors "CLOSE" with
        | Throw e => Throw e
        | Normal closedSensor =>
            Normal
              {| _name := get "name";
                 _gpioChanStateIndicator := get "state_indicator";
                 _gpioChanCtrlRequest := get "control_request";
                 _gpioManualCtrlRequest := get "manual_control_reqest";
                 _openSensor := openSensor;
                 _closedSensor := closedSensor;
                 _currentDoorState := UNKNOWN;
                 _targetDoorState := UNKNOWN;
                 _doorLocked :=
                   if has "soft_locked" then get "soft_locked" else JS.Bool true;
                 _debounceTimerIdDoorCntrl := None;
                 _doorActivationWatchdogId := None;
                 _initialized := false |}
        end
    end.

End Runtime.

(** *** The door in the event loop *)

(** The function of a sensor in the door. *)
Inductive SensorFunction : Type := OPEN_SENSOR | CLOSE_SENSOR.

(** What reaches [setTimeout] around a door: the debounced manual request,
    the activation watchdog, the release of the relay
    ([setTimeout(_gpiop.write, ..)]), the two notifications, and the rest of
    [IdentifyDoor] after a [_delay]. *)
Inductive Callback : Type :=
| doActivateDoor (overrideLock : bool)
| updateDoorState (oldDoorState : DOOR_STATE)
| gpiop_write_later (channel : JS.value) (value : bool)
| emit_state_change (previousState newState : DOOR_STATE)
| emit_result_changed (which : SensorFunction)
    (oldResult newResult : SensorBase.SENSOR_RESULT)
| identify_resume (count : nat).

(** [gpio_ok]: the GPIO library carries out what it is asked (its promises
    resolve).  [written]: the levels written to output lines, oldest first.
    [change_registered], [sensors_registered]: the door's handlers are
    registered for the GPIO ['change'] event and for the sensors'
    ['result_changed'].  [notified]: the ['state_change'] notifications
    delivered so far, as [(previousState, newState)], oldest first. *)
Record World : Type := mkWorld {
  loop : EventLoop.t Callback;
  door : Door;
  gpio_ok : bool;
  written : list (JS.value * bool);
  change_registered : bool;
  sensors_registered : bool;
  notified : list (DOOR_STATE * DOOR_STATE)
}.

Definition set_loop (l : EventLoop.t Callback) (w : World) : World :=
  mkWorld l (door w) (gpio_ok w) (written w) (change_registered w)
    (sensors_registered w) (notified w).

Definition set_door (d : Door) (w : World) : World :=
  mkWorld (loop w) d (gpio_ok w) (written w) (change_registered w)
    (sensors_registered w) (notified w).

(** [setTimeout] whose handle is not kept. *)
Definition later (c : Callback) (after : float) (w : World) : World :=
  set_loop (snd (EventLoop.setTimeout c after (loop w))) w.

(** [_gpiop.write(channel, value)] *)
Definition gpiop_write (channel : JS.value) (value : bool) (w : World) : World :=
  if gpio_ok w then
    mkWorld (loop w) (door w) (gpio_ok w) (written w ++ [(channel, value)])
      (change_registered w) (sensors_registered w) (notified w)
  else w.

(** [_gpiop.read(channel)] of an output line: the level last written to
    it, low before any write. *)
Definition gpiop_read (channel : JS.value) (w : World) : bool :=
  match find (fun x => JS.strict_equals (fst x) channel) (rev (written w)) with
  | Some x => snd x
  | None => false
  end.

(** [_updateDoorState(newDoorState)] *)
Definition _updateDoorState (newDoorState : DOOR_STATE) (w : World) : World :=
  let lastState := DoorState (door w) in
  let w1 := set_door (set_currentDoorState newDoorState (door w)) w in
  let w2 := gpiop_write (_gpioChanStateIndicator (door w1)) (negb (DoorClosed (door w1))) w1 in
  let w3 := set_loop (EventLoop.clearIfDefined (_doorActivationWatchdogId (door w2)) (loop w2)) w2 in
  later (emit_state_change lastState (DoorState (door w3))) 0%float w3.

(** [_doActivateDoor(overrideLock)].  The continuation of the relay write
    runs after the body, so the release timer is armed after the watchdog. *)
Definition _doActivateDoor (overrideLock : bool) (w : World) : World :=
  let ACTIVATE_RELAY := false in
  if Initialized (door w)
     && (negb (JS.truthy (DoorLocked (door w))) || overrideLock)
  then
    let w1 := set_loop (EventLoop.clearIfDefined (_doorActivationWatchdogId (door w)) (loop w)) w in
    let w2 := gpiop_write (_gpioChanCtrlRequest (door w1)) ACTIVATE_RELAY w1 in
    let '(id, l) :=
      EventLoop.setTimeout (updateDoorState (DoorState (door w2)))
        _DOOR_ACTIVATION_TIMEOUT (loop w2) in
    let w3 := set_door (set_doorActivationWatchdogId (Some id) (door w2)) (set_loop l w2) in
    if gpio_ok w3 then
      later (gpiop_write_later (_gpioChanCtrlRequest (door w3)) (negb ACTIVATE_RELAY))
        _DOOR_CTRL_REQ_TIME w3
    else w3
  else w.

(** [ActivateDoor()] *)
Definition ActivateDoor (w : World) : World := _doActivateDoor false w.

(** [_stateChange(channel, value)] *)
Definition _stateChange (channel : JS.value) (value : bool) (w : World) : World :=
  if JS.strict_equals channel (_gpioManualCtrlRequest (door w)) then
    let l1 := EventLoop.clearIfDefined (_debounceTimerIdDoorCntrl (door w)) (loop w) in
    let '(id, l2) :=
      EventLoop.setTimeout (doActivateDoor true) _DOOR_CNTRL_SWITCH_DEBOUNCE l1 in
    set_door (set_debounceTimerIdDoorCntrl (Some id) (door w)) (set_loop l2 w)
  else w.

(** [_sensorResultChanged(oldResult, newResult, context)] *)
Definition _sensorResultChanged
  (oldResult newResult : SensorBase.SENSOR_RESULT) (w : World) : World :=
  let newDoorState := _determineDoorState (door w) in
  _updateDoorState newDoorState w.

Definition IDENTIFICATION_TOGGLE_CYCLES : nat :=
  Eval vm_compute in
    Z.to_nat (EventLoop.trunc
                (_DOOR_TOTAL_IDENTIFICATION_TIMEOUT / _DOOR_IDENTIFICATION_TOGGLE_TIMEOUT)%float).

(** [IdentifyDoor()] from the test of its [for] loop at [count] on: the
    body toggles the indicator and waits in [_delay]; after the last pass
    the indicator is restored through [_updateDoorState].  A rejected read
    or write ends the body there. *)
Definition identify_from (count : nat) (w : World) : World :=
  if Nat.ltb count IDENTIFICATION_TOGGLE_CYCLES then
    if gpio_ok w then
      let ledState := gpiop_read (_gpioChanStateIndicator (door w)) w in
      let w1 := gpiop_write (_gpioChanStateIndicator (door w)) (negb ledState) w in
      later (identify_resume (S count)) _DOOR_IDENTIFICATION_TOGGLE_TIMEOUT w1
    else w
  else _updateDoorState (DoorState (door w)) w.

(** [IdentifyDoor()] *)
Definition IdentifyDoor (w : World) : World :=
  if Initialized (door w) then identify_from 0 w else w.

(** [Start()], the door's part: the sensors' own [Start] runs in their
    models, and what they publish arrives through [sensor_setResult]. *)
Definition Start (w : World) : World :=
  let w0 := set_door (set_initialized false (door w)) w in
  if gpio_ok w0 then
    let w1 := set_door (set_currentDoorState (_determineDoorState (door w0)) (door w0)) w0 in
    let w2 := gpiop_write (_gpioChanStateIndicator (door w1)) (DoorOpen (door w1)) w1 in
    mkWorld (loop w2) (set_initialized true (door w2)) (gpio_ok w2) (written w2)
      true true (notified w2)
  else w0.

(** [Terminate()] *)
Definition Terminate (w : World) : World :=
  let d := door w in
  let d1 := set_sensors (sensor_Terminate (_openSensor d)) (sensor_Terminate (_closedSensor d)) d in
  let l1 :=
    match _debounceTimerIdDoorCntrl d with
    | Some id => EventLoop.clearTimeout id (loop w)
    | None => loop w
    end in
  let w1 := mkWorld l1 d1 (gpio_ok w) (written w) false false (notified w) in
  let w2 := gpiop_write (_gpioChanStateIndicator d1) false w1 in
  let w3 := gpiop_write (_gpioChanCtrlRequest d1) true w2 in
  set_door (set_initialized false (door w3)) w3.

(** A sensor of the door runs [_setResult(newResult)]. *)
Definition sensor_setResult (which : SensorFunction)
  (newResult : SensorBase.SENSOR_RESULT) (w : World) : World :=
  let d := door w in
  let x := match which with OPEN_SENSOR => _openSensor d | CLOSE_SENSOR => _closedSensor d end in
  let '(b, notification) := SensorBase._setResult newResult (sensor_base x) in
  let x' := sensor_set_base b x in
  let d' :=
    match which with
    | OPEN_SENSOR => set_sensors x' (_closedSensor d) d
    | CLOSE_SENSOR => set_sensors (_openSensor d) x' d
    end in
  match notification with
  | Some (resultOld, resultNew) =>
      later (emit_result_changed which resultOld resultNew) 0%float (set_door d' w)
  | None => set_door d' w
  end.

(** A ['change'] event of the GPIO library. *)
Definition gpio_change (channel : JS.value) (value : bool) (w : World) : World :=
  if change_registered w then _stateChange channel value w else w.

(** Running a timer's callback. *)
Definition fire (c : Callback) (w : World) : World :=
  match c with
  | doActivateDoor overrideLock => _doActivateDoor overrideLock w
  | updateDoorState oldDoorState => _updateDoorState oldDoorState w
  | gpiop_write_later channel value => gpiop_write channel value w
  | emit_state_change previousState newState =>
      mkWorld (loop w) (door w) (gpio_ok w) (written w) (change_registered w)
        (sensors_registered w) (notified w ++ [(previousState, newState)])
  | emit_result_changed _ oldResult newResult =>
      if sensors_registered w then _sensorResultChanged oldResult newResult w else w
  | identify_resume count => identify_from count w
  end.

(** The event loop up to time [limit]: fire the due timers in order, then
    let the clock reach [limit].  [None]: [fuel] was too small. *)
Fixpoint run (fuel : nat) (limit : Z) (w : World) : option World :=
  match fuel with
  | O => None
  | S fuel' =>
      match EventLoop.next limit (loop w) with
      | Some (x, l) => run fuel' limit (fire (EventLoop.cb x) (set_loop l w))
      | None => Some (set_loop (EventLoop.advance limit (loop w)) w)
      end
  end.

(** A door that has just been constructed, in an idle event loop at time
    [time], with a GPIO library that works. *)
Definition fresh (time : Z) (d : Door) : World :=
  mkWorld (EventLoop.mk time 0 []) d true [] false false [].

(** What reaches a door from outside the timer queue: GPIO events, results
    set by its sensors, and the calls of its collaborators. *)
Inductive Input : Type :=
| gpio_event (channel : JS.value) (value : bool)
| sensor_result (which : SensorFunction) (newResult : SensorBase.SENSOR_RESULT)
| call_ActivateDoor
| call_IdentifyDoor
| call_DoorLocked (locked : JS.value)
| call_Start
| call_Terminate.

Definition deliver (i : Input) (w : World) : World :=
  match i with
  | gpio_event channel value => gpio_change channel value w
  | sensor_result which newResult => sensor_setResult which newResult w
  | call_ActivateDoor => ActivateDoor w
  | call_IdentifyDoor => IdentifyDoor w
  | call_DoorLocked locked => set_door (DoorLocked_set locked (door w)) w
  | call_Start => Start w
  | call_Terminate => Terminate w
  end.

(** The worlds a door can be in: a newly constructed door in an idle event
    loop, then any sequence of inputs and of timers firing in due order. *)
Inductive reachable (text_to_number : JS.value -> float) : World -> Prop :=
| reach_new (configuration : JS.object) (d : Door) (time : Z) (ok : bool) :
    constructor text_to_number configuration = Normal d ->
    reachable text_to_number (mkWorld (EventLoop.mk time 0 []) d ok [] false false [])
| reach_input (i : Input) (w : World) :
    reachable text_to_number w -> reachable text_to_number (deliver i w)
| reach_timer (limit : Z) (x : EventLoop.Timer Callback) (l : EventLoop.t Callback)
    (w : World) :
    reachable text_to_number w ->
    EventLoop.next limit (loop w) = Some (x, l) ->
    reachable text_to_number (fire (EventLoop.cb x) (set_loop l w)).

(** The armed activation watchdogs. *)
Definition is_watchdog (x : EventLoop.Timer Callback) : bool :=
  match EventLoop.cb x with updateDoorState _ => true | _ => false end.

Definition watchdogs (w : World) : list (EventLoop.Timer Callback) :=
  filter is_watchdog (EventLoop.pending (loop w)).

(** The ['state_change'] notifications handed to [setTimeout] and not yet
    delivered. *)
Definition queued (w : World) : list (DOOR_STATE * DOOR_STATE) :=
  flat_map (fun x => match EventLoop.cb x with
                     | emit_state_change p n => [(p, n)]
                     | _ => []
                     end) (EventLoop.pending (loop w)).

(** What the queue and the watchdog handle of a running door satisfy:
    handles are numbers already given out, and the armed watchdogs are the
    timers the door's handle names. *)
Record wf_core (l : EventLoop.t Callback) (handle : option nat) : Prop := {
  wf_fresh : forall x, In x (EventLoop.pending l) -> EventLoop.tid x < EventLoop.nextId l;
  wf_handle : forall i, handle = Some i -> i < EventLoop.nextId l;
  wf_watchdog : forall x, In x (EventLoop.pending l) ->
                          (is_watchdog x = true <-> handle = Some (EventLoop.tid x))
}.

Definition wf (w : World) : Prop :=
  wf_core (loop w) (_doorActivationWatchdogId (door w)).

(** Every callback but the watchdog's. *)
Definition not_watchdog (c : Callback) : Prop :=
  match c with updateDoorState _ => False | _ => True end.

(** The lock flag holds [true] or [false]. *)
Definition is_boolean (v : JS.value) : Prop := exists b, v = JS.Bool b.

(** The test at the head of [_doActivateDoor]. *)
Definition may_activate (overrideLock : bool) (d : Door) : bool :=
  Initialized d && (negb (JS.truthy (DoorLocked d)) || overrideLock).

End DoorController.

(* ===================================================================== *)
(** ** The resolver table of the specification *)
(* ===================================================================== *)

Module Spec.

(** The table of section 4.3, row by row ([o]: open sensor, [c]: close
    sensor). *)
Definition resolver_table (o c : SensorBase.SENSOR_RESULT)
  (previousState : DoorController.DOOR_STATE) : DoorController.DOOR_STATE :=
  match o, c with
  | SensorBase.UNKNOWN, SensorBase.UNKNOWN => DoorController.UNKNOWN
  | SensorBase.UNKNOWN, SensorBase.UNDETECTED => DoorController.OPEN
  | SensorBase.UNKNOWN, SensorBase.DETECTED => DoorController.CLOSED
  | SensorBase.UNDETECTED, SensorBase.UNKNOWN => DoorController.CLOSED
  | SensorBase.UNDETECTED, SensorBase.UNDETECTED =>
      match previousState with
      | DoorController.OPEN => DoorController.CLOSING
      | DoorController.CLOSED => DoorController.OPENING
      | DoorController.UNKNOWN => DoorController.UNKNOWN
      | DoorController.OPENING => DoorController.OPENING
      | DoorController.CLOSING => DoorController.CLOSING
      end
  | SensorBase.UNDETECTED, SensorBase.DETECTED => DoorController.CLOSED
  | SensorBase.DETECTED, SensorBase.UNKNOWN => DoorController.OPEN
  | SensorBase.DETECTED, SensorBase.UNDETECTED => DoorController.OPEN
  | SensorBase.DETECTED, SensorBase.DETECTED => DoorController.UNKNOWN
  end.

(** What section 4.1 asks of a sonar configuration: a polling interval, if
    any, of at least 0.25 s; a change-notification threshold, if any, above
    0; trigger and echo lines; a detect range with [max > min >= 0]. *)
Definition sonar_configuration_accepted (configuration : JS.object) : Prop :=
  (JS.lookup configuration "polling_interval" = None
   \/ exists x, JS.lookup configuration "polling_interval" = Some (JS.Num x)
                /\ PrimFloat.leb 0.25 x = true)
  /\ (JS.lookup configuration "distance_threshold_change_notification" = None
      \/ exists x, JS.lookup configuration "distance_threshold_change_notification"
                   = Some (JS.Num x)
                   /\ PrimFloat.ltb 0 x = true)
  /\ (exists x, JS.lookup configuration "trigger_out" = Some (JS.Num x))
  /\ (exists x, JS.lookup configuration "echo_in" = Some (JS.Num x))
  /\ (exists lo hi,
        JS.lookup configuration "detect_threshold_min" = Some (JS.Num lo)
        /\ JS.lookup configuration "detect_threshold_max" = Some (JS.Num hi)
        /\ PrimFloat.ltb lo hi = true
        /\ PrimFloat.leb 0 lo = true).

End Spec.

(* ===================================================================== *)
(** ** A sample installation *)
(* ===================================================================== *)

Module Sample.

Definition no_text : JS.value -> float := fun _ => PrimFloat.nan.

Definition open_switch : JS.object :=
  [("detect_in", JS.Num 23%float)].

Definition close_switch : JS.object :=
  [("debounce_time", JS.Num 1.0%float); ("mode", JS.Bool true);
   ("detect_in", JS.Num 24%float)].

Definition door_configuration : JS.object :=
  [("name", JS.Str "Main");
   ("state_indicator", JS.Num 17%float);
   ("control_request", JS.Num 27%float);
   ("manual_control_reqest", JS.Num 22%float);
   ("soft_locked", JS.Bool false);
   ("detect_sensors",
    JS.Arr [JS.Obj [("id", JS.Str "up"); ("class", JS.Str "ProximitySwitchSensor");
                    ("function", JS.Str "open"); ("config", JS.Obj open_switch)];
            JS.Obj [("id", JS.Str "down"); ("class", JS.Str "ProximitySwitchSensor");
                    ("function", JS.Str "close"); ("config", JS.Obj close_switch)]])].

Definition switch (id : string) (pin : float) (r : SensorBase.SENSOR_RESULT)
  : DoorController.Sensor :=
  DoorController.Prox
    (ProximitySwitchSensor.mk (SensorBase.mk (JS.Str id) false r)
       1000%float true (JS.Num pin) None None).

(** The door [new DoorController(door_configuration)] gives, with the
    sensors and the door at the given results and state. *)
Definition door_at (o c : SensorBase.SENSOR_RESULT) (st : DoorController.DOOR_STATE)
  : DoorController.Door :=
  DoorController.mkDoor (JS.Str "Main") (JS.Num 17%float) (JS.Num 27%float)
    (JS.Num 22%float) (switch "up" 23%float o) (switch "down" 24%float c)
    st DoorController.UNKNOWN (JS.Bool false) None None false.

Definition door : DoorController.Door :=
  door_at SensorBase.UNKNOWN SensorBase.UNKNOWN DoorController.UNKNOWN.

(** The door after [Start()], at time 0 of an idle event loop. *)
Definition started : DoorController.World :=
  DoorController.Start (DoorController.fresh 0 door).

(** The same, once [DoorLocked = true] has been run. *)
Definition locked : DoorController.World :=
  DoorController.set_door
    (DoorController.DoorLocked_set (JS.Bool true) (DoorController.door started))
    started.

(** A proximity switch on line 23, normally closed, started while the
    circuit is closed. *)
Definition switch_up : ProximitySwitchSensor.t :=
  ProximitySwitchSensor.mk (SensorBase.mk (JS.Str "up") false SensorBase.UNKNOWN)
    1000%float true (JS.Num 23%float) None None.

Definition switch_started : ProximitySwitchSensor.World :=
  ProximitySwitchSensor.Start (Some true) (ProximitySwitchSensor.fresh 0 switch_up).

(** Three edges within 20 ms, two seconds after the start; the line ends
    low. *)
Definition burst : list (Z * JS.value * bool) :=
  [(2000%Z, JS.Num 23%float, false);
   (2010%Z, JS.Num 23%float, true);
   (2020%Z, JS.Num 23%float, false)].

(** A sonar configuration with a negative detect range and a negative
    change threshold. *)
Definition sonar_below_zero : JS.object :=
  [("distance_threshold_change_notification", JS.Num (-1)%float);
   ("trigger_out", JS.Num 5%float);
   ("echo_in", JS.Num 6%float);
   ("detect_threshold_min", JS.Num (-1)%float);
   ("detect_threshold_max", JS.Num 0.5%float)].

(** A sonar configuration with a polling interval and no change
    threshold. *)
Definition sonar_polled : JS.object :=
  [("polling_interval", JS.Num 1%float);
   ("trigger_out", JS.Num 5%float);
   ("echo_in", JS.Num 6%float);
   ("detect_threshold_min", JS.Num 0.10%float);
   ("detect_threshold_max", JS.Num 0.50%float)].

(** The sonar of the scenario of section 8: detect range 0.10 m to 0.50 m. *)
Definition sonar_configuration : JS.object :=
  [("trigger_out", JS.Num 5%float);
   ("echo_in", JS.Num 6%float);
   ("detect_threshold_min", JS.Num 0.10%float);
   ("detect_threshold_max", JS.Num 0.50%float)].

Definition sonar : SonarSensor.t :=
  SonarSensor.mk (SensorBase.mk (JS.Str "ranger") false SensorBase.UNKNOWN)
    5000%float (JS.Num 0.08%float) (JS.Num 5%float) (JS.Num 6%float)
    (JS.Num 0.10%float) (JS.Num 0.50%float) None
    (-1000)%float (-1000)%float 0%float 0%float SonarSensor.INACTIVE.

Definition sonar_world : SonarSensor.World :=
  SonarSensor.mkWorld (EventLoop.mk 0 0 []) sonar.

End Sample.

(* ===================================================================== *)
(** ** The timers of a door, and traces of inputs *)
(* ===================================================================== *)

Module DoorTimers.
Import DoorController.

(** The armed debounce timers of the manual request. *)
Definition is_debounce (x : EventLoop.Timer Callback) : bool :=
  match EventLoop.cb x with doActivateDoor _ => true | _ => false end.

Definition debounces (w : World) : list (EventLoop.Timer Callback) :=
  filter is_debounce (EventLoop.pending (loop w)).

(** What the queue and the debounce handle satisfy: no two timers share a
    handle, and the armed debounce timers are the ones the door's handle
    names. *)
Record db_core (l : EventLoop.t Callback) (handle : option nat) : Prop := {
  db_ids : NoDup (map (@EventLoop.tid Callback) (EventLoop.pending l));
  db_handle : forall i, handle = Some i -> i < EventLoop.nextId l;
  db_debounce : forall x, In x (EventLoop.pending l) ->
                          (is_debounce x = true <-> handle = Some (EventLoop.tid x))
}.


(** Both handles right at once. *)
Definition both (l : EventLoop.t Callback) (hw hd : option nat) : Prop :=
  wf_core l hw /\ db_core l hd.

Definition tidy (w : World) : Prop :=
  both (loop w) (_doorActivationWatchdogId (door w)) (_debounceTimerIdDoorCntrl (door w)).

(** Neither the watchdog's callback nor the debounce timer's. *)
Definition plain (c : Callback) : Prop :=
  match c with
  | updateDoorState _ | doActivateDoor _ => False
  | _ => True
  end.

(** Inputs [(time, input)] in order of arrival: the timers due by the time
    of an input fire before it is handled.  [None]: [fuel] was too small
    for one of the stretches. *)
Fixpoint trace (fuel : nat) (es : list (Z * Input)) (w : World) : option World :=
  match es with
  | [] => Some w
  | (time, i) :: es' =>
      match run fuel time w with
      | Some w' => trace fuel es' (deliver i w')
      | None => None
      end
  end.

(** Presses of the manual button at the given times. *)
Definition presses (times : list Z) (w : World) : list (Z * Input) :=
  map (fun time => (time, gpio_event (_gpioManualCtrlRequest (door w)) true)) times.

(** Each time is at or after the one before, and less than [window] after
    it. *)
Fixpoint within (window : Z) (previous : Z) (times : list Z) : Prop :=
  match times with
  | [] => True
  | time :: rest =>
      (previous <= time < previous + window)%Z /\ within window time rest
  end.







End DoorTimers.

(* ===================================================================== *)
(** ** The detection sensors of a configuration, item by item *)
(* ===================================================================== *)

Module DoorConfig.
Import DoorController.

(** The verdict of the validation on one item of [detect_sensors]. *)
Definition item_valid (configItem : JS.value) : bool :=
  fst (validate_item configItem (false, false)).

(** The item's [function] is [key], whatever the case of its letters. *)
Definition has_function (key : string) (configItem : JS.value) : bool :=
  String.eqb (JS.toUpperCase (text_of (JS.get (config_of configItem) "function"))) key.

(** Every item is valid, one is an ['OPEN'] sensor and one a ['CLOSE']
    sensor. *)
Definition sensors_valid (configuration : list JS.value) : bool :=
  forallb item_valid configuration
  && existsb (has_function "OPEN") configuration
  && existsb (has_function "CLOSE") configuration.

End DoorConfig.

(* ===================================================================== *)
(** ** Properties *)
(* ===================================================================== *)

Import DoorController.
Local Open Scope list_scope.

Lemma sample_door_constructed :
  DoorController.constructor Sample.no_text Sample.door_configuration
  = Normal Sample.door.
Proof. vm_compute. reflexivity. Qed.

(** Away from the two transit rows, [_determineDoorState] is the table of
    section 4.3. *)
Lemma determineDoorState_table (d : Door) :
  ~ (sensor_Result (_openSensor d) = SensorBase.UNDETECTED
     /\ sensor_Result (_closedSensor d) = SensorBase.UNDETECTED
     /\ (DoorState d = OPENING \/ DoorState d = CLOSING)) ->
  _determineDoorState d
  = Spec.resolver_table (sensor_Result (_openSensor d))
      (sensor_Result (_closedSensor d)) (DoorState d).
Proof.
  unfold _determineDoorState.
  destruct (sensor_Result (_openSensor d)), (sensor_Result (_closedSensor d));
    try reflexivity.
  destruct (DoorState d); intros H; try reflexivity; exfalso; apply H; auto.
Qed.

(** C1 (the code departs from the claim): with both sensors at UNDETECTED
    and the door last known as OPENING or CLOSING, [_determineDoorState]
    returns UNKNOWN, where the table of section 4.3 keeps the prior state. *)
Theorem determineDoorState_transit_to_unknown (d : Door) :
  sensor_Result (_openSensor d) = SensorBase.UNDETECTED ->
  sensor_Result (_closedSensor d) = SensorBase.UNDETECTED ->
  DoorState d = OPENING \/ DoorState d = CLOSING ->
  _determineDoorState d = UNKNOWN
  /\ _determineDoorState d <> DoorState d
  /\ Spec.resolver_table (sensor_Result (_openSensor d))
       (sensor_Result (_closedSensor d)) (DoorState d) = DoorState d.
Proof.
  intros Ho Hc Hs. unfold _determineDoorState. rewrite Ho, Hc.
  destruct Hs as [Hs | Hs]; rewrite Hs; cbn; repeat split; congruence.
Qed.

Lemma determineDoorState_transit_to_unknown_witness :
  _determineDoorState
    (Sample.door_at SensorBase.UNDETECTED SensorBase.UNDETECTED OPENING) = UNKNOWN
  /\ _determineDoorState
       (Sample.door_at SensorBase.UNDETECTED SensorBase.UNDETECTED OPENING)
     <> OPENING.
Proof.
  destruct (determineDoorState_transit_to_unknown
              (Sample.door_at SensorBase.UNDETECTED SensorBase.UNDETECTED OPENING)
              eq_refl eq_refl (or_introl eq_refl)) as [H1 [H2 _]].
  split; [exact H1 | exact H2].
Defined.

(** The same on the running sample door.  The door is closed (open sensor
    UNDETECTED, close sensor DETECTED); the close sensor goes to UNDETECTED
    and the door is OPENING; the close sensor then reports DETECTED and
    UNDETECTED again within one turn of the event loop, and the handler of
    the first report finds both sensors at UNDETECTED: the door is put to
    UNKNOWN. *)
Lemma transit_state_lost_on_sample_door :
  exists w1 w2 w3,
    run 8 10 (sensor_setResult CLOSE_SENSOR SensorBase.DETECTED
                (sensor_setResult OPEN_SENSOR SensorBase.UNDETECTED Sample.started))
    = Some w1
    /\ DoorState (door w1) = CLOSED
    /\ run 8 20 (sensor_setResult CLOSE_SENSOR SensorBase.UNDETECTED w1) = Some w2
    /\ DoorState (door w2) = OPENING
    /\ run 8 30 (sensor_setResult CLOSE_SENSOR SensorBase.UNDETECTED
                   (sensor_setResult CLOSE_SENSOR SensorBase.DETECTED w2))
       = Some w3
    /\ DoorState (door w3) = UNKNOWN
    /\ notified w3
       = [(UNKNOWN, CLOSED); (CLOSED, CLOSED); (CLOSED, OPENING);
          (OPENING, UNKNOWN); (UNKNOWN, UNKNOWN)].
Proof.
  eexists. eexists. eexists.
  split; [vm_compute; reflexivity |].
  split; [vm_compute; reflexivity |].
  split; [vm_compute; reflexivity |].
  split; [vm_compute; reflexivity |].
  split; [vm_compute; reflexivity |].
  split; vm_compute; reflexivity.
Qed.

(** *** The timer queue *)

Lemma msecs_activation_timeout : EventLoop.msecs _DOOR_ACTIVATION_TIMEOUT = 30000%Z.
Proof. vm_compute. reflexivity. Qed.

Lemma msecs_ctrl_req_time : EventLoop.msecs _DOOR_CTRL_REQ_TIME = 100%Z.
Proof. vm_compute. reflexivity. Qed.

Lemma msecs_zero : EventLoop.msecs 0%float = 1%Z.
Proof. vm_compute. reflexivity. Qed.

Section QueueFacts.
Context {C : Type}.
Implicit Types (l : EventLoop.t C) (x : EventLoop.Timer C).

Lemma pending_setTimeout (c : C) (after : float) l :
  EventLoop.pending (snd (EventLoop.setTimeout c after l))
  = EventLoop.pending l
    ++ [EventLoop.mkTimer (EventLoop.nextId l)
          (EventLoop.now l + EventLoop.msecs after)%Z c].
Proof. reflexivity. Qed.

Lemma in_clearTimeout (id : nat) l x :
  In x (EventLoop.pending (EventLoop.clearTimeout id l))
  <-> In x (EventLoop.pending l) /\ EventLoop.tid x <> id.
Proof.
  unfold EventLoop.clearTimeout; cbn. rewrite filter_In.
  rewrite negb_true_iff, Nat.eqb_neq. reflexivity.
Qed.

Lemma in_clearIfDefined (h : option nat) l x :
  In x (EventLoop.pending (EventLoop.clearIfDefined h l))
  <-> In x (EventLoop.pending l) /\ h <> Some (EventLoop.tid x).
Proof.
  destruct h as [id |]; cbn [EventLoop.clearIfDefined].
  - rewrite in_clearTimeout. split; intros [H1 H2]; split; auto; congruence.
  - split; [intros H; split; [exact H | discriminate] | tauto].
Qed.

Lemma earliest_in (ts : list (EventLoop.Timer C)) x :
  EventLoop.earliest ts = Some x -> In x ts.
Proof.
  revert x. induction ts as [| a r IH]; cbn; intros x H; [discriminate |].
  destruct (EventLoop.earliest r) as [y |].
  - destruct (EventLoop.due y <? EventLoop.due a)%Z; inversion H; subst; auto.
  - inversion H; auto.
Qed.

Lemma next_pending (limit : Z) l x l' :
  EventLoop.next limit l = Some (x, l') ->
  In x (EventLoop.pending l)
  /\ EventLoop.nextId l' = EventLoop.nextId l
  /\ (forall y, In y (EventLoop.pending l') ->
                In y (EventLoop.pending l) /\ EventLoop.tid y <> EventLoop.tid x).
Proof.
  unfold EventLoop.next.
  destruct (EventLoop.earliest (EventLoop.pending l)) as [y |] eqn:E; [| discriminate].
  destruct (EventLoop.due y <=? limit)%Z; [| discriminate].
  intros H; inversion H; subst; clear H. cbn.
  split; [eapply earliest_in; eauto |]. split; [reflexivity |].
  intros z Hz. apply filter_In in Hz. destruct Hz as [Hz1 Hz2].
  rewrite negb_true_iff, Nat.eqb_neq in Hz2. auto.
Qed.

End QueueFacts.

(** *** The watchdog handle of a running door *)

Lemma no_member_nil {A : Type} (xs : list A) : (forall x, ~ In x xs) -> xs = [].
Proof.
  destruct xs as [| a r]; [reflexivity |]. intros H. exfalso. apply (H a). left; reflexivity.
Qed.

Lemma wf_core_subset (l l' : EventLoop.t Callback) (h : option nat) :
  wf_core l h ->
  EventLoop.nextId l' = EventLoop.nextId l ->
  (forall x, In x (EventLoop.pending l') -> In x (EventLoop.pending l)) ->
  wf_core l' h.
Proof.
  intros [F H W] En Sub. split.
  - intros x Hx. rewrite En. auto.
  - intros i Hi. rewrite En. auto.
  - intros x Hx. auto.
Qed.

Lemma wf_core_clearTimeout (id : nat) (l : EventLoop.t Callback) (h : option nat) :
  wf_core l h -> wf_core (EventLoop.clearTimeout id l) h.
Proof.
  intros H. apply (wf_core_subset l); [exact H | reflexivity |].
  intros x Hx. apply in_clearTimeout in Hx. tauto.
Qed.

Lemma wf_core_clearIfDefined (id : option nat) (l : EventLoop.t Callback) (h : option nat) :
  wf_core l h -> wf_core (EventLoop.clearIfDefined id l) h.
Proof. destruct id; cbn; [apply wf_core_clearTimeout | trivial]. Qed.

Lemma wf_core_advance (limit : Z) (l : EventLoop.t Callback) (h : option nat) :
  wf_core l h -> wf_core (EventLoop.advance limit l) h.
Proof. intros H. apply (wf_core_subset l); [exact H | reflexivity | auto]. Qed.

Lemma wf_core_next (limit : Z) (l l' : EventLoop.t Callback) x (h : option nat) :
  wf_core l h -> EventLoop.next limit l = Some (x, l') -> wf_core l' h.
Proof.
  intros H E. apply next_pending in E. destruct E as [_ [En Sub]].
  apply (wf_core_subset l); [exact H | exact En |]. intros y Hy. apply Sub; exact Hy.
Qed.

Lemma wf_core_setTimeout (c : Callback) (after : float) (l : EventLoop.t Callback)
  (h : option nat) :
  wf_core l h -> not_watchdog c -> wf_core (snd (EventLoop.setTimeout c after l)) h.
Proof.
  intros [F H W] Hc. split; cbn.
  - intros x Hx. apply in_app_or in Hx. destruct Hx as [Hx | [Hx | []]].
    + specialize (F x Hx). lia.
    + subst x. cbn. lia.
  - intros i Hi. specialize (H i Hi). lia.
  - intros x Hx. apply in_app_or in Hx. destruct Hx as [Hx | [Hx | []]].
    + auto.
    + subst x. unfold is_watchdog; cbn. split.
      * destruct c; cbn in Hc; try discriminate; contradiction.
      * intros Hh. specialize (H _ Hh). lia.
Qed.

Lemma wf_core_arm (s : DOOR_STATE) (after : float) (l : EventLoop.t Callback)
  (h : option nat) :
  wf_core l h ->
  wf_core (snd (EventLoop.setTimeout (updateDoorState s) after
                  (EventLoop.clearIfDefined h l)))
          (Some (EventLoop.nextId (EventLoop.clearIfDefined h l))).
Proof.
  intros [F H W].
  assert (En : EventLoop.nextId (EventLoop.clearIfDefined h l) = EventLoop.nextId l)
    by (destruct h; reflexivity).
  split; cbn; rewrite En.
  - intros x Hx. apply in_app_or in Hx. destruct Hx as [Hx | [Hx | []]].
    + apply in_clearIfDefined in Hx. destruct Hx as [Hx _]. specialize (F x Hx). lia.
    + subst x. cbn. lia.
  - intros i Hi. inversion Hi. lia.
  - intros x Hx. apply in_app_or in Hx. destruct Hx as [Hx | [Hx | []]].
    + apply in_clearIfDefined in Hx. destruct Hx as [Hx Hn].
      split.
      * intros Hw. exfalso. apply Hn. apply W; assumption.
      * intros Hh. inversion Hh as [Hi]. specialize (F x Hx). lia.
    + subst x. cbn. split; reflexivity.
Qed.

Lemma watchdogs_cleared (l : EventLoop.t Callback) (h : option nat) :
  wf_core l h ->
  filter is_watchdog (EventLoop.pending (EventLoop.clearIfDefined h l)) = [].
Proof.
  intros [F H W]. apply no_member_nil. intros x Hx.
  apply filter_In in Hx. destruct Hx as [Hx Hw].
  apply in_clearIfDefined in Hx. destruct Hx as [Hx Hn].
  apply Hn. apply W; assumption.
Qed.

Lemma queued_cleared (w : World) (l : EventLoop.t Callback) (h : option nat) :
  wf_core l h ->
  queued (set_loop (EventLoop.clearIfDefined h l) w) = queued (set_loop l w).
Proof.
  intros [F H W]. destruct h as [id |]; cbn; [| reflexivity].
  unfold queued; cbn.
  induction (EventLoop.pending l) as [| a r IH]; cbn; [reflexivity |].
  assert (Ha := W a (or_introl eq_refl)).
  assert (IH' : flat_map (fun x => match EventLoop.cb x with
                                   | emit_state_change p n => [(p, n)]
                                   | _ => []
                                   end)
                  (filter (fun x => negb (Nat.eqb (EventLoop.tid x) id)) r)
                = flat_map (fun x => match EventLoop.cb x with
                                     | emit_state_change p n => [(p, n)]
                                     | _ => []
                                     end) r).
  { apply IH.
    - intros x Hx. apply F. right; exact Hx.
    - intros x Hx. apply W. right; exact Hx. }
  destruct (Nat.eqb_spec (EventLoop.tid a) id) as [E | E]; cbn.
  - assert (Hw : is_watchdog a = true) by (apply Ha; congruence).
    unfold is_watchdog in Hw. destruct (EventLoop.cb a); try discriminate.
    cbn. exact IH'.
  - rewrite IH'. reflexivity.
Qed.

(** *** What [_updateDoorState] does *)

Arguments EventLoop.setTimeout : simpl never.
Arguments EventLoop.clearIfDefined : simpl never.
Arguments EventLoop.clearTimeout : simpl never.
Arguments EventLoop.msecs : simpl never.

Lemma gpiop_write_frame (channel : JS.value) (value : bool) (w : World) :
  loop (gpiop_write channel value w) = loop w
  /\ door (gpiop_write channel value w) = door w
  /\ notified (gpiop_write channel value w) = notified w
  /\ gpio_ok (gpiop_write channel value w) = gpio_ok w
  /\ sensors_registered (gpiop_write channel value w) = sensors_registered w
  /\ change_registered (gpiop_write channel value w) = change_registered w.
Proof. unfold gpiop_write. destruct (gpio_ok w) eqn:E; cbn; repeat split; auto. Qed.

Lemma updateDoorState_loop (s : DOOR_STATE) (w : World) :
  loop (_updateDoorState s w)
  = snd (EventLoop.setTimeout (emit_state_change (DoorState (door w)) s) 0%float
           (EventLoop.clearIfDefined (_doorActivationWatchdogId (door w)) (loop w))).
Proof.
  unfold _updateDoorState, later, gpiop_write. cbn.
  destruct (gpio_ok w); reflexivity.
Qed.

Lemma updateDoorState_door (s : DOOR_STATE) (w : World) :
  door (_updateDoorState s w) = set_currentDoorState s (door w).
Proof.
  unfold _updateDoorState, later, gpiop_write. cbn.
  destruct (gpio_ok w); reflexivity.
Qed.

Lemma updateDoorState_notified (s : DOOR_STATE) (w : World) :
  notified (_updateDoorState s w) = notified w.
Proof.
  unfold _updateDoorState, later, gpiop_write. cbn.
  destruct (gpio_ok w); reflexivity.
Qed.

Lemma updateDoorState_wf (s : DOOR_STATE) (w : World) :
  wf w -> wf (_updateDoorState s w).
Proof.
  unfold wf. intros H. rewrite updateDoorState_loop, updateDoorState_door. cbn.
  apply wf_core_setTimeout; [| exact I]. apply wf_core_clearIfDefined. exact H.
Qed.

Lemma updateDoorState_watchdogs (s : DOOR_STATE) (w : World) :
  wf w -> watchdogs (_updateDoorState s w) = [].
Proof.
  unfold wf, watchdogs. intros H. rewrite updateDoorState_loop.
  rewrite pending_setTimeout, filter_app, (watchdogs_cleared _ _ H). reflexivity.
Qed.

Lemma updateDoorState_queued (s : DOOR_STATE) (w : World) :
  wf w -> queued (_updateDoorState s w) = queued w ++ [(DoorState (door w), s)].
Proof.
  unfold wf. intros H. unfold queued at 1. rewrite updateDoorState_loop.
  rewrite pending_setTimeout, flat_map_app. cbn.
  pose proof (queued_cleared w _ _ H) as Q. unfold queued in Q. cbn in Q.
  rewrite Q. reflexivity.
Qed.

(** *** Every step of a door keeps the watchdog handle right *)

Lemma later_wf (c : Callback) (after : float) (w : World) :
  wf w -> not_watchdog c -> wf (later c after w).
Proof. unfold wf, later. cbn. intros H Hc. apply wf_core_setTimeout; assumption. Qed.

Lemma gpiop_write_wf (channel : JS.value) (value : bool) (w : World) :
  wf w -> wf (gpiop_write channel value w).
Proof.
  unfold wf. destruct (gpiop_write_frame channel value w) as [El [Ed _]].
  rewrite El, Ed. trivial.
Qed.

Lemma doActivateDoor_refused (overrideLock : bool) (w : World) :
  may_activate overrideLock (door w) = false -> _doActivateDoor overrideLock w = w.
Proof. unfold may_activate, _doActivateDoor. intros E. rewrite E. reflexivity. Qed.

Lemma doActivateDoor_accepted (overrideLock : bool) (w : World) :
  may_activate overrideLock (door w) = true ->
  let relay := _gpioChanCtrlRequest (door w) in
  let cleared := EventLoop.clearIfDefined (_doorActivationWatchdogId (door w)) (loop w) in
  let armed :=
    snd (EventLoop.setTimeout (updateDoorState (DoorState (door w)))
           _DOOR_ACTIVATION_TIMEOUT cleared) in
  let d := set_doorActivationWatchdogId (Some (EventLoop.nextId cleared)) (door w) in
  _doActivateDoor overrideLock w
  = if gpio_ok w then
      mkWorld
        (snd (EventLoop.setTimeout (gpiop_write_later relay true) _DOOR_CTRL_REQ_TIME armed))
        d true (written w ++ [(relay, false)])
        (change_registered w) (sensors_registered w) (notified w)
    else
      mkWorld armed d false (written w)
        (change_registered w) (sensors_registered w) (notified w).
Proof.
  unfold may_activate, _doActivateDoor. intros E. rewrite E.
  unfold gpiop_write, later, EventLoop.setTimeout. cbn.
  destruct (gpio_ok w) eqn:G; unfold set_door, set_loop; cbn; rewrite ?G; reflexivity.
Qed.

Lemma doActivateDoor_wf (overrideLock : bool) (w : World) :
  wf w -> wf (_doActivateDoor overrideLock w).
Proof.
  intros H. destruct (may_activate overrideLock (door w)) eqn:E.
  - rewrite (doActivateDoor_accepted _ _ E). unfold wf in *.
    destruct (gpio_ok w); cbn [loop door set_doorActivationWatchdogId _doorActivationWatchdogId].
    + apply wf_core_setTimeout; [| exact I]. apply wf_core_arm. exact H.
    + apply wf_core_arm. exact H.
  - rewrite (doActivateDoor_refused _ _ E). exact H.
Qed.

Lemma stateChange_wf (channel : JS.value) (value : bool) (w : World) :
  wf w -> wf (_stateChange channel value w).
Proof.
  unfold wf, _stateChange. intros H.
  destruct (JS.strict_equals channel (_gpioManualCtrlRequest (door w))); [| exact H].
  unfold EventLoop.setTimeout at 1. cbn.
  apply (wf_core_setTimeout (doActivateDoor true) _DOOR_CNTRL_SWITCH_DEBOUNCE);
    [| exact I].
  apply wf_core_clearIfDefined. exact H.
Qed.

Lemma sensorResultChanged_wf (o n : SensorBase.SENSOR_RESULT) (w : World) :
  wf w -> wf (_sensorResultChanged o n w).
Proof. apply updateDoorState_wf. Qed.

Lemma identify_from_wf (count : nat) (w : World) : wf w -> wf (identify_from count w).
Proof.
  unfold identify_from. intros H.
  destruct (Nat.ltb count IDENTIFICATION_TOGGLE_CYCLES).
  - destruct (gpio_ok w); [| exact H].
    apply later_wf; [| exact I]. apply gpiop_write_wf. exact H.
  - apply updateDoorState_wf. exact H.
Qed.

Lemma IdentifyDoor_wf (w : World) : wf w -> wf (IdentifyDoor w).
Proof.
  unfold IdentifyDoor. intros H. destruct (Initialized (door w)); [| exact H].
  apply identify_from_wf. exact H.
Qed.

Lemma Start_wf (w : World) : wf w -> wf (Start w).
Proof.
  unfold wf, Start, gpiop_write. cbn. intros H. destruct (gpio_ok w); cbn; exact H.
Qed.

Lemma Terminate_wf (w : World) : wf w -> wf (Terminate w).
Proof.
  unfold wf, Terminate, gpiop_write. cbn. intros H.
  destruct (gpio_ok w); cbn;
    destruct (_debounceTimerIdDoorCntrl (door w)); try exact H;
    apply wf_core_clearTimeout; exact H.
Qed.

Lemma sensor_setResult_wf (which : SensorFunction) (r : SensorBase.SENSOR_RESULT)
  (w : World) : wf w -> wf (sensor_setResult which r w).
Proof.
  unfold sensor_setResult. intros H.
  destruct (SensorBase._setResult r _) as [b [[o n] |]];
    [apply later_wf; [| exact I] |]; destruct which; exact H.
Qed.

Lemma gpio_change_wf (channel : JS.value) (value : bool) (w : World) :
  wf w -> wf (gpio_change channel value w).
Proof.
  unfold gpio_change. intros H. destruct (change_registered w); [| exact H].
  apply stateChange_wf. exact H.
Qed.

Lemma DoorLocked_set_wf (v : JS.value) (w : World) :
  wf w -> wf (set_door (DoorLocked_set v (door w)) w).
Proof.
  unfold wf, DoorLocked_set. cbn. intros H. destruct (JS.typeof_is v "boolean"); exact H.
Qed.

Lemma fire_wf (c : Callback) (w : World) : wf w -> wf (fire c w).
Proof.
  intros H. destruct c; cbn.
  - apply doActivateDoor_wf; exact H.
  - apply updateDoorState_wf; exact H.
  - apply gpiop_write_wf; exact H.
  - exact H.
  - destruct (sensors_registered w); [apply sensorResultChanged_wf |]; exact H.
  - apply identify_from_wf; exact H.
Qed.

Lemma run_wf (fuel : nat) (limit : Z) (w v : World) :
  wf w -> run fuel limit w = Some v -> wf v.
Proof.
  revert w. induction fuel as [| fuel IH]; cbn; intros w H E; [discriminate |].
  destruct (EventLoop.next limit (loop w)) as [[x l] |] eqn:N.
  - assert (Hl : wf (set_loop l w)) by (exact (wf_core_next _ _ _ _ _ H N)).
    apply (IH _ (fire_wf _ _ Hl) E).
  - inversion E; subst. unfold wf; cbn. apply wf_core_advance. exact H.
Qed.

Lemma fresh_wf (time : Z) (d : Door) : _doorActivationWatchdogId d = None -> wf (fresh time d).
Proof.
  intros Hd. unfold wf; cbn. rewrite Hd. split; cbn.
  - intros x [].
  - intros i Hi; discriminate.
  - intros x [].
Qed.

Lemma constructor_no_watchdog (t : JS.value -> float) (configuration : JS.object)
  (d : Door) :
  DoorController.constructor t configuration = Normal d ->
  _doorActivationWatchdogId d = None.
Proof.
  unfold DoorController.constructor.
  destruct (configValid configuration); cbn [negb]; [| discriminate].
  destruct (_createDetectionSensor t _ "OPEN"); [| discriminate].
  destruct (_createDetectionSensor t _ "CLOSE"); [| discriminate].
  intros H. inversion H; subst. reflexivity.
Qed.

Lemma deliver_wf (i : Input) (w : World) : wf w -> wf (deliver i w).
Proof.
  intros H. destruct i; cbn [deliver].
  - apply gpio_change_wf; exact H.
  - apply sensor_setResult_wf; exact H.
  - apply doActivateDoor_wf; exact H.
  - apply IdentifyDoor_wf; exact H.
  - apply DoorLocked_set_wf; exact H.
  - apply Start_wf; exact H.
  - apply Terminate_wf; exact H.
Qed.

(** Every world a door can be in keeps the watchdog handle right. *)
Lemma reachable_wf (t : JS.value -> float) (w : World) : reachable t w -> wf w.
Proof.
  induction 1 as [configuration d time ok C | i w R IH | limit x l w R IH N].
  - unfold wf; cbn. rewrite (constructor_no_watchdog _ _ _ C). split; cbn.
    + intros x [].
    + intros i Hi; discriminate.
    + intros x [].
  - apply deliver_wf; exact IH.
  - apply fire_wf. exact (wf_core_next _ _ _ _ _ IH N).
Qed.

(** *** An activation in an idle event loop *)

Lemma msecs_literals :
  EventLoop.msecs 30000 = 30000%Z /\ EventLoop.msecs 100 = 100%Z
  /\ EventLoop.msecs 0 = 1%Z /\ EventLoop.msecs 500 = 500%Z.
Proof. repeat split; vm_compute; reflexivity. Qed.

Ltac order :=
  repeat match goal with
    | |- context [(?a <? ?b)%Z] =>
        first [ replace (a <? b)%Z with true by (symmetry; apply Z.ltb_lt; lia)
              | replace (a <? b)%Z with false by (symmetry; apply Z.ltb_ge; lia) ]
    | |- context [(?a <=? ?b)%Z] =>
        first [ replace (a <=? b)%Z with true by (symmetry; apply Z.leb_le; lia)
              | replace (a <=? b)%Z with false by (symmetry; apply Z.leb_gt; lia) ]
    | |- context [Nat.eqb ?a ?b] =>
        first [ replace (Nat.eqb a b) with true by (symmetry; apply Nat.eqb_eq; lia)
              | replace (Nat.eqb a b) with false by (symmetry; apply Nat.eqb_neq; lia) ]
    end.

Lemma run_S (fuel : nat) (limit : Z) (w : World) :
  run (S fuel) limit w
  = match EventLoop.next limit (loop w) with
    | Some (x, l) => run fuel limit (fire (EventLoop.cb x) (set_loop l w))
    | None => Some (set_loop (EventLoop.advance limit (loop w)) w)
    end.
Proof. reflexivity. Qed.

(** Evaluation of the event loop on a queue whose due times are known up
    to the clock: one timer at a time, the order of due times by [lia]. *)
Ltac eval_step M :=
  repeat (progress (cbv -[run EventLoop.msecs Z.add Z.max Z.ltb Z.leb Nat.eqb];
                    repeat rewrite (proj1 M);
                    repeat rewrite (proj1 (proj2 M));
                    repeat rewrite (proj1 (proj2 (proj2 M)));
                    repeat rewrite (proj2 (proj2 (proj2 M)));
                    order)).

Ltac eval_run :=
  let M := fresh "M" in
  pose proof msecs_literals as M;
  eval_step M; repeat (rewrite run_S; eval_step M); clear M.

Lemma idle_activation_times_out (overrideLock : bool) (w : World) (T : Z) :
  EventLoop.pending (loop w) = [] ->
  may_activate overrideLock (door w) = true ->
  (EventLoop.now (loop w) + 30001 <= T)%Z ->
  exists v,
    run 4 T (_doActivateDoor overrideLock w) = Some v
    /\ notified v = notified w ++ [(DoorState (door w), DoorState (door w))]
    /\ watchdogs v = []
    /\ DoorState (door v) = DoorState (door w).
Proof.
  intros Hp E HT. rewrite (doActivateDoor_accepted _ _ E).
  destruct w as [[t0 n p] d g wr cr sr nt]. cbn in Hp, HT. subst p.
  cbn [gpio_ok door loop written change_registered sensors_registered notified].
  destruct (_doorActivationWatchdogId d) as [h |] eqn:Hh; destruct g;
    (eexists; split; [eval_run; reflexivity | cbv; auto]).
Qed.

Lemma idle_activation_waits (overrideLock : bool) (w : World) (t : Z) :
  EventLoop.pending (loop w) = [] ->
  may_activate overrideLock (door w) = true ->
  (t < EventLoop.now (loop w) + 30000)%Z ->
  exists v id,
    run 4 t (_doActivateDoor overrideLock w) = Some v
    /\ notified v = notified w
    /\ watchdogs v
       = [EventLoop.mkTimer id (EventLoop.now (loop w) + 30000)%Z
            (updateDoorState (DoorState (door w)))]
    /\ DoorState (door v) = DoorState (door w).
Proof.
  intros Hp E Ht. rewrite (doActivateDoor_accepted _ _ E).
  destruct w as [[t0 n p] d g wr cr sr nt]. cbn in Hp, Ht. subst p.
  cbn [gpio_ok door loop written change_registered sensors_registered notified].
  destruct (Z_le_gt_dec (t0 + 100) t);
    destruct (_doorActivationWatchdogId d) as [h |] eqn:Hh; destruct g;
    (eexists; exists n; split; [eval_run; reflexivity | cbv; auto]).
Qed.

Lemma idle_activation_confirmed (overrideLock : bool) (w : World) (t T : Z)
  (o n : SensorBase.SENSOR_RESULT) :
  EventLoop.pending (loop w) = [] ->
  may_activate overrideLock (door w) = true ->
  (t < EventLoop.now (loop w) + 30000)%Z ->
  (EventLoop.now (loop w) + 30001 <= T)%Z ->
  exists v1 v2,
    run 4 t (_doActivateDoor overrideLock w) = Some v1
    /\ run 4 T (_sensorResultChanged o n v1) = Some v2
    /\ notified v2 = notified w ++ [(DoorState (door w), _determineDoorState (door w))]
    /\ watchdogs v2 = []
    /\ DoorState (door v2) = _determineDoorState (door w).
Proof.
  intros Hp E Ht HT. rewrite (doActivateDoor_accepted _ _ E).
  destruct w as [[t0 i p] d g wr cr sr nt]. cbn in Hp, Ht, HT. subst p.
  cbn [gpio_ok door loop written change_registered sensors_registered notified].
  destruct (Z_le_gt_dec (t0 + 100) t);
    destruct (Z_lt_ge_dec (Z.max t0 t + 1) (t0 + 100)); try lia;
    destruct (_doorActivationWatchdogId d) as [h |] eqn:Hh; destruct g;
    (eexists; eexists; split; [eval_run; reflexivity |];
     split; [eval_run; reflexivity | cbv; auto]).
Qed.

Lemma doActivateDoor_arms (overrideLock : bool) (w : World) :
  wf w ->
  may_activate overrideLock (door w) = true ->
  exists id,
    _doorActivationWatchdogId (door (_doActivateDoor overrideLock w)) = Some id
    /\ watchdogs (_doActivateDoor overrideLock w)
       = [EventLoop.mkTimer id (EventLoop.now (loop w) + 30000)%Z
            (updateDoorState (DoorState (door w)))].
Proof.
  intros H E. rewrite (doActivateDoor_accepted _ _ E).
  exists (EventLoop.nextId
            (EventLoop.clearIfDefined (_doorActivationWatchdogId (door w)) (loop w))).
  assert (En : EventLoop.now
                 (EventLoop.clearIfDefined (_doorActivationWatchdogId (door w)) (loop w))
               = EventLoop.now (loop w))
    by (destruct (_doorActivationWatchdogId (door w)); reflexivity).
  unfold watchdogs.
  destruct (gpio_ok w); cbn [door loop _doorActivationWatchdogId set_doorActivationWatchdogId];
    (split; [reflexivity |]);
    rewrite ?pending_setTimeout, ?filter_app, (watchdogs_cleared _ _ H);
    cbn; rewrite En, msecs_activation_timeout; reflexivity.
Qed.

Lemma sample_started_wf : wf Sample.started.
Proof. apply Start_wf. apply fresh_wf. reflexivity. Qed.

(** *** Claims on the door *)

(** C2: an activation that passes the gate arms one watchdog, due 30 s
    later and holding the door state of that moment (the only watchdog
    armed); when it fires, one ['state_change'] notification carrying that
    state is queued, and a sensor-driven update disarms it.  In an event
    loop that was idle at the activation: nothing is notified before the
    30 s are over, exactly one notification [(captured, captured)] is
    delivered once they are, and if instead a sensor-driven update comes
    first, the only notification is that update's.  ([wf] holds in every
    world a door can be in: [reachable_wf].) *)
Theorem activation_watchdog (overrideLock : bool) (w : World) :
  wf w ->
  may_activate overrideLock (door w) = true ->
  let captured := DoorState (door w) in
  let deadline := (EventLoop.now (loop w) + 30000)%Z in
  let w' := _doActivateDoor overrideLock w in
  (exists id,
      _doorActivationWatchdogId (door w') = Some id
      /\ watchdogs w' = [EventLoop.mkTimer id deadline (updateDoorState captured)])
  /\ (forall v, wf v ->
        queued (fire (updateDoorState captured) v)
        = queued v ++ [(DoorState (door v), captured)]
        /\ watchdogs (fire (updateDoorState captured) v) = [])
  /\ (forall o n v, wf v -> watchdogs (_sensorResultChanged o n v) = [])
  /\ (EventLoop.pending (loop w) = [] ->
      (forall t, (t < deadline)%Z ->
         exists v id,
           run 4 t w' = Some v
           /\ notified v = notified w
           /\ watchdogs v = [EventLoop.mkTimer id deadline (updateDoorState captured)])
      /\ (forall T, (deadline + 1 <= T)%Z ->
            exists v,
              run 4 T w' = Some v
              /\ notified v = notified w ++ [(captured, captured)]
              /\ watchdogs v = [])
      /\ (forall t T o n, (t < deadline)%Z -> (deadline + 1 <= T)%Z ->
            exists v1 v2,
              run 4 t w' = Some v1
              /\ run 4 T (_sensorResultChanged o n v1) = Some v2
              /\ notified v2
                 = notified w ++ [(captured, _determineDoorState (door w))]
              /\ watchdogs v2 = [])).
Proof.
  intros H E captured deadline w'. repeat split.
  - exact (doActivateDoor_arms _ _ H E).
  - apply (updateDoorState_queued captured v); assumption.
  - apply (updateDoorState_watchdogs captured v); assumption.
  - intros o n v Hv. apply updateDoorState_watchdogs; assumption.
  - intros t Ht.
    destruct (idle_activation_waits overrideLock w t H0 E Ht) as [v [id [R [N [W _]]]]].
    exists v, id. auto.
  - intros T HT.
    destruct (idle_activation_times_out overrideLock w T H0 E) as [v [R [N [W _]]]];
      [unfold deadline in HT; lia |].
    exists v. auto.
  - intros t T o n Ht HT.
    destruct (idle_activation_confirmed overrideLock w t T o n H0 E Ht)
      as [v1 [v2 [R1 [R2 [N [W _]]]]]]; [unfold deadline in HT; lia |].
    exists v1, v2. auto.
Qed.

Lemma activation_watchdog_witness :
  exists v,
    run 4 30001 (ActivateDoor Sample.started) = Some v
    /\ notified v = [(UNKNOWN, UNKNOWN)]
    /\ watchdogs v = [].
Proof.
  destruct (activation_watchdog false Sample.started sample_started_wf eq_refl)
    as [_ [_ [_ Idle]]].
  destruct (Idle eq_refl) as [_ [Timeout _]].
  exact (Timeout 30001%Z ltac:(cbn; lia)).
Defined.

(** C3: [_doActivateDoor(false)] on a door that is locked, or not
    initialized, changes nothing at all: no relay write, no timer, the same
    door state.  With [overrideLock = true] an initialized door is
    activated whatever the lock says: the watchdog is armed, and with a
    working GPIO the relay is driven low and its release is due 100 ms
    later. *)
Theorem activation_lock_gate (w : World) :
  (Initialized (door w) = false \/ DoorLocked (door w) = JS.Bool true ->
   _doActivateDoor false w = w)
  /\ (Initialized (door w) = true ->
      let w' := _doActivateDoor true w in
      let relay := _gpioChanCtrlRequest (door w) in
      (exists id,
          _doorActivationWatchdogId (door w') = Some id
          /\ In (EventLoop.mkTimer id (EventLoop.now (loop w) + 30000)%Z
                   (updateDoorState (DoorState (door w))))
                (EventLoop.pending (loop w')))
      /\ (gpio_ok w = true ->
          written w' = written w ++ [(relay, false)]
          /\ exists id,
               In (EventLoop.mkTimer id (EventLoop.now (loop w) + 100)%Z
                     (gpiop_write_later relay true))
                  (EventLoop.pending (loop w')))).
Proof.
  split.
  - intros H. apply doActivateDoor_refused. unfold may_activate.
    destruct H as [H | H]; rewrite H; [reflexivity |].
    cbn. apply andb_false_r.
  - intros H w' relay.
    assert (E : may_activate true (door w) = true).
    { unfold may_activate. rewrite H. cbn. apply orb_true_r. }
    assert (En : EventLoop.now
                   (EventLoop.clearIfDefined (_doorActivationWatchdogId (door w)) (loop w))
                 = EventLoop.now (loop w))
      by (destruct (_doorActivationWatchdogId (door w)); reflexivity).
    unfold w'. rewrite (doActivateDoor_accepted _ _ E). split.
    + eexists. destruct (gpio_ok w);
        cbn [door loop written _doorActivationWatchdogId set_doorActivationWatchdogId];
        (split; [reflexivity |]); rewrite ?pending_setTimeout;
        rewrite ?in_app_iff; cbn; rewrite En, msecs_activation_timeout; auto.
    + intros G. rewrite G. cbn [written loop]. split; [reflexivity |].
      eexists. rewrite pending_setTimeout. apply in_or_app. right. left.
      unfold EventLoop.setTimeout. cbn. rewrite En, msecs_ctrl_req_time. reflexivity.
Qed.

Lemma activation_lock_gate_witness :
  ActivateDoor Sample.locked = Sample.locked
  /\ written (_doActivateDoor true Sample.locked)
     = written Sample.locked ++ [(JS.Num 27%float, false)].
Proof.
  destruct (activation_lock_gate Sample.locked) as [Refused Forced]. split.
  - exact (Refused (or_intror eq_refl)).
  - exact (proj1 (proj2 (Forced eq_refl) eq_refl)).
Defined.

(** C9: [_updateDoorState] always queues exactly one ['state_change']
    notification, from the state the door had to the state given (the same
    state included), sets that state and leaves no watchdog armed;
    [SensorBase._setResult] by contrast does nothing for the result it
    already has.  The watchdog callback and the end of [IdentifyDoor] are
    calls of [_updateDoorState].  ([wf] holds in every world a door can be
    in: [reachable_wf].) *)
Theorem updateDoorState_always_notifies (newDoorState : DOOR_STATE) (w : World) :
  wf w ->
  (queued (_updateDoorState newDoorState w)
   = queued w ++ [(DoorState (door w), newDoorState)]
   /\ watchdogs (_updateDoorState newDoorState w) = []
   /\ DoorState (door (_updateDoorState newDoorState w)) = newDoorState)
  /\ queued (_updateDoorState (DoorState (door w)) w)
     = queued w ++ [(DoorState (door w), DoorState (door w))]
  /\ (forall b : SensorBase.t,
        SensorBase._setResult (SensorBase.Result b) b = (b, None))
  /\ fire (updateDoorState newDoorState) w = _updateDoorState newDoorState w
  /\ identify_from IDENTIFICATION_TOGGLE_CYCLES w
     = _updateDoorState (DoorState (door w)) w.
Proof.
  intros H. repeat split.
  - apply updateDoorState_queued; exact H.
  - apply updateDoorState_watchdogs; exact H.
  - rewrite updateDoorState_door. reflexivity.
  - apply updateDoorState_queued; exact H.
  - intros b. unfold SensorBase._setResult, SensorBase.Result.
    destruct (SensorBase._result b); reflexivity.
Qed.

Lemma updateDoorState_always_notifies_witness :
  queued (_updateDoorState UNKNOWN (ActivateDoor Sample.started))
  = [(UNKNOWN, UNKNOWN)]
  /\ watchdogs (_updateDoorState UNKNOWN (ActivateDoor Sample.started)) = [].
Proof.
  destruct (updateDoorState_always_notifies UNKNOWN (ActivateDoor Sample.started)
              (doActivateDoor_wf false _ sample_started_wf)) as [[Q [W _]] _].
  split; [exact Q | exact W].
Defined.

(** *** The soft lock *)

Lemma typeof_boolean (v : JS.value) :
  JS.typeof_is v "boolean" = true <-> is_boolean v.
Proof.
  unfold is_boolean. destruct v; cbn; split; intros H;
    try discriminate; try (destruct H; discriminate); eauto.
Qed.

Lemma constructor_lock_boolean (t : JS.value -> float) (configuration : JS.object)
  (d : Door) :
  DoorController.constructor t configuration = Normal d -> is_boolean (DoorLocked d).
Proof.
  unfold DoorController.constructor.
  destruct (configValid configuration) eqn:V; cbn [negb]; [| discriminate].
  destruct (_createDetectionSensor t _ "OPEN"); [| discriminate].
  destruct (_createDetectionSensor t _ "CLOSE"); [| discriminate].
  intros H. inversion H; subst; clear H. cbn.
  unfold configValid in V.
  repeat (apply andb_prop in V; destruct V as [V ?]).
  destruct (JS.hasOwnProperty configuration "soft_locked") eqn:S.
  - apply typeof_boolean.
    match goal with
    | L : (_ && JS.typeof_is _ "boolean" || _) = true |- _ =>
        cbn in L; rewrite orb_false_r in L; exact L
    end.
  - exists true. reflexivity.
Qed.

Lemma fire_lock (c : Callback) (w : World) :
  DoorLocked (door (fire c w)) = DoorLocked (door w).
Proof.
  destruct c; cbn [fire].
  - destruct (may_activate overrideLock (door w)) eqn:E.
    + rewrite (doActivateDoor_accepted _ _ E). destruct (gpio_ok w); reflexivity.
    + rewrite (doActivateDoor_refused _ _ E). reflexivity.
  - rewrite updateDoorState_door. reflexivity.
  - destruct (gpiop_write_frame channel value w) as [_ [E _]]. rewrite E. reflexivity.
  - reflexivity.
  - destruct (sensors_registered w); [| reflexivity].
    unfold _sensorResultChanged. rewrite updateDoorState_door. reflexivity.
  - unfold identify_from. destruct (Nat.ltb count IDENTIFICATION_TOGGLE_CYCLES).
    + destruct (gpio_ok w) eqn:G; [| reflexivity].
      unfold later, gpiop_write. rewrite G. reflexivity.
    + rewrite updateDoorState_door. reflexivity.
Qed.

Lemma deliver_lock (i : Input) (w : World) :
  is_boolean (DoorLocked (door w)) -> is_boolean (DoorLocked (door (deliver i w))).
Proof.
  intros H. destruct i; cbn [deliver].
  - unfold gpio_change, _stateChange.
    destruct (change_registered w); [| exact H].
    destruct (JS.strict_equals channel (_gpioManualCtrlRequest (door w))); exact H.
  - unfold sensor_setResult.
    destruct (SensorBase._setResult newResult _) as [b [[o n] |]]; destruct which; exact H.
  - exact (eq_ind_r (fun v => is_boolean v) H (fire_lock (doActivateDoor false) w)).
  - unfold IdentifyDoor. destruct (Initialized (door w)); [| exact H].
    exact (eq_ind_r (fun v => is_boolean v) H (fire_lock (identify_resume 0) w)).
  - cbn [door set_door]. unfold DoorLocked_set.
    destruct (JS.typeof_is locked "boolean") eqn:E; [| exact H].
    apply typeof_boolean in E. exact E.
  - unfold Start, gpiop_write. cbn. destruct (gpio_ok w); exact H.
  - unfold Terminate, gpiop_write. cbn. destruct (gpio_ok w); exact H.
Qed.

(** In every world a door can be in, the lock flag is a boolean. *)
Lemma reachable_lock_boolean (t : JS.value -> float) (w : World) :
  reachable t w -> is_boolean (DoorLocked (door w)).
Proof.
  induction 1 as [configuration d time ok C | i w R IH | limit x l w R IH N].
  - exact (constructor_lock_boolean _ _ _ C).
  - apply deliver_lock; exact IH.
  - rewrite fire_lock. exact IH.
Qed.

(** C10: the [DoorLocked] setter leaves the door as it is for every
    argument that is not a boolean, so a locked door stays locked; the lock
    flag is a boolean from construction on, the setter keeps it one, no
    timer callback touches it, and it is a boolean in every world a door
    can be in. *)
Theorem DoorLocked_set_keeps_boolean :
  (forall (v : JS.value) (d : Door),
      JS.typeof v <> "boolean" -> DoorLocked_set v d = d)
  /\ (forall (v : JS.value) (d : Door),
        is_boolean (DoorLocked d) -> is_boolean (DoorLocked (DoorLocked_set v d)))
  /\ (forall (t : JS.value -> float) (configuration : JS.object) (d : Door),
        DoorController.constructor t configuration = Normal d ->
        is_boolean (DoorLocked d))
  /\ (forall (c : Callback) (w : World),
        DoorLocked (door (fire c w)) = DoorLocked (door w))
  /\ (forall (t : JS.value -> float) (w : World),
        reachable t w -> is_boolean (DoorLocked (door w))).
Proof.
  split; [| split; [| split; [| split]]].
  - intros v d H. unfold DoorLocked_set, JS.typeof_is.
    destruct (String.eqb_spec (JS.typeof v) "boolean"); [contradiction | reflexivity].
  - intros v d H. unfold DoorLocked_set.
    destruct (JS.typeof_is v "boolean") eqn:E; [| exact H].
    apply typeof_boolean in E. exact E.
  - exact constructor_lock_boolean.
  - exact fire_lock.
  - exact reachable_lock_boolean.
Qed.

Lemma DoorLocked_set_keeps_boolean_witness :
  DoorLocked_set (JS.Str "false") (door Sample.locked) = door Sample.locked
  /\ DoorLocked (DoorLocked_set (JS.Num 0%float) (door Sample.locked)) = JS.Bool true
  /\ is_boolean (DoorLocked Sample.door).
Proof.
  destruct DoorLocked_set_keeps_boolean as [Ignored [_ [Built _]]].
  split; [| split].
  - apply Ignored. cbn. discriminate.
  - rewrite Ignored; [reflexivity | cbn; discriminate].
  - exact (Built Sample.no_text Sample.door_configuration Sample.door
             sample_door_constructed).
Defined.

(** C8 (the code departs from the claim): [Terminate()] cancels the
    debounce timer only.  After [ActivateDoor()] and then [Terminate()] on
    the sample door, the door is uninitialized and both outputs are at
    their defaults, yet the activation watchdog is still armed; 30 s later
    it fires, switches the indicator on and a ['state_change'] is
    delivered. *)
Theorem Terminate_leaves_watchdog_armed :
  let w := Terminate (ActivateDoor Sample.started) in
  Initialized (door w) = false
  /\ written w
     = [(JS.Num 17%float, false); (JS.Num 27%float, false);
        (JS.Num 17%float, false); (JS.Num 27%float, true)]
  /\ watchdogs w = [EventLoop.mkTimer 0 30000%Z (updateDoorState UNKNOWN)]
  /\ exists v,
       run 4 30001 w = Some v
       /\ notified v = [(UNKNOWN, UNKNOWN)]
       /\ written v = written w ++ [(JS.Num 27%float, true); (JS.Num 17%float, true)].
Proof.
  cbv zeta.
  split; [vm_compute; reflexivity |].
  split; [vm_compute; reflexivity |].
  split; [vm_compute; reflexivity |].
  eexists.
  split; [vm_compute; reflexivity |].
  split; vm_compute; reflexivity.
Qed.

Lemma Terminate_keeps_watchdogs (w : World) (x : EventLoop.Timer Callback) :
  In x (watchdogs w) ->
  _debounceTimerIdDoorCntrl (door w) <> Some (EventLoop.tid x) ->
  In x (watchdogs (Terminate w)).
Proof.
  unfold watchdogs, Terminate, gpiop_write. intros Hx Hn.
  apply filter_In in Hx. destruct Hx as [Hx Hw].
  apply filter_In. split; [| exact Hw].
  destruct (gpio_ok w); cbn;
    destruct (_debounceTimerIdDoorCntrl (door w)) as [id |]; try exact Hx;
    apply in_clearTimeout; split; try exact Hx; congruence.
Qed.

(** *** Claims on the sensors *)

Lemma sample_switch_constructed :
  ProximitySwitchSensor.constructor Sample.no_text (JS.Str "up") Sample.open_switch
  = Normal Sample.switch_up.
Proof. vm_compute. reflexivity. Qed.

(** An edge on the sensor's line arms a timer and cancels none: the handle
    [_stateChange] tests, [_debounceTimerIdSwitchState], is never the one it
    stores. *)
Lemma stateChange_arms_only (channel : JS.value) (value : bool)
  (w : ProximitySwitchSensor.World) :
  ProximitySwitchSensor._debounceTimerIdSwitchState (ProximitySwitchSensor.sensor w) = None ->
  JS.strict_equals channel
    (ProximitySwitchSensor._gpioDetectIn (ProximitySwitchSensor.sensor w)) = true ->
  let w' := ProximitySwitchSensor._stateChange channel value w in
  EventLoop.pending (ProximitySwitchSensor.loop w')
  = EventLoop.pending (ProximitySwitchSensor.loop w)
    ++ [EventLoop.mkTimer (EventLoop.nextId (ProximitySwitchSensor.loop w))
          (EventLoop.now (ProximitySwitchSensor.loop w)
           + EventLoop.msecs (ProximitySwitchSensor._switchDebounce
                                (ProximitySwitchSensor.sensor w)))%Z
          (ProximitySwitchSensor.update_switch_state value)]
  /\ ProximitySwitchSensor._debounceTimerIdSwitchState (ProximitySwitchSensor.sensor w')
     = None.
Proof.
  intros Hn Hc. unfold ProximitySwitchSensor._stateChange.
  rewrite Hc, Hn. unfold EventLoop.setTimeout, EventLoop.clearIfDefined. cbn.
  split; reflexivity.
Qed.

(** C4 (the code departs from the claim): the three edges of the sample
    burst arrive within 20 ms of one another, far inside the debounce
    window of 1000 ms; none cancels the timer of the one before, all three
    timers fire, and three result changes are published after the burst
    (the first notification is the one of [Start]) where the claim has
    exactly one. *)
Theorem proximity_burst_publishes_every_edge :
  exists w v,
    ProximitySwitchSensor.edges 4 Sample.burst Sample.switch_started = Some w
    /\ map (@EventLoop.cb _) (EventLoop.pending (ProximitySwitchSensor.loop w))
       = [ProximitySwitchSensor.update_switch_state false;
          ProximitySwitchSensor.update_switch_state true;
          ProximitySwitchSensor.update_switch_state false]
    /\ ProximitySwitchSensor.run 8 10000 w = Some v
    /\ ProximitySwitchSensor.notified v
       = [(SensorBase.UNKNOWN, SensorBase.DETECTED);
          (SensorBase.DETECTED, SensorBase.UNDETECTED);
          (SensorBase.UNDETECTED, SensorBase.DETECTED);
          (SensorBase.DETECTED, SensorBase.UNDETECTED)].
Proof.
  eexists. eexists.
  split; [vm_compute; reflexivity |].
  split; [vm_compute; reflexivity |].
  split; vm_compute; reflexivity.
Qed.



Lemma present_number (c : JS.object) (k : string) :
  JS.hasOwnProperty c k && JS.typeof_is (JS.get c k) "number" = true
  <-> exists x, JS.lookup c k = Some (JS.Num x).
Proof.
  unfold JS.hasOwnProperty, JS.get, JS.typeof_is.
  destruct (JS.lookup c k) as [[] |]; cbn; split; intros H;
    try discriminate; try (destruct H; discriminate); eauto.
Qed.

Lemma optional_number (c : JS.object) (k : string) :
  negb (JS.hasOwnProperty c k) || JS.typeof_is (JS.get c k) "number" = true
  <-> JS.lookup c k = None \/ exists x, JS.lookup c k = Some (JS.Num x).
Proof.
  unfold JS.hasOwnProperty, JS.get, JS.typeof_is.
  destruct (JS.lookup c k) as [[] |]; cbn; split; intros H;
    try discriminate; eauto;
    destruct H as [H | [y H]]; discriminate.
Qed.

Lemma optional_number_at_least (c : JS.object) (k : string) (lo : float) :
  negb (JS.hasOwnProperty c k)
  || (JS.typeof_is (JS.get c k) "number" && JS.ge (JS.get c k) (JS.Num lo)) = true
  <-> JS.lookup c k = None
      \/ exists x, JS.lookup c k = Some (JS.Num x) /\ PrimFloat.leb lo x = true.
Proof.
  unfold JS.hasOwnProperty, JS.get, JS.typeof_is.
  destruct (JS.lookup c k) as [[] |]; cbn; split; intros H;
    try discriminate; eauto;
    destruct H as [H | [y [H L]]]; try discriminate.
  inversion H; subst. exact L.
Qed.

Lemma and7 (a b c d e f g : bool) :
  a && b && c && d && e && f && g = true
  <-> a = true /\ b = true /\ c = true /\ d = true /\ e = true /\ f = true /\ g = true.
Proof. destruct a, b, c, d, e, f, g; cbn; intuition discriminate. Qed.

Lemma sonar_below_zero_accepted :
  SonarSensor.ValidateConfiguration Sample.sonar_below_zero = true.
Proof. vm_compute. reflexivity. Qed.

(** What [ValidateConfiguration] accepts, exactly: a polling interval, if
    present, that is a number of at least 0.25; a change threshold, if
    present, that is a number; trigger line, echo line and both detect
    thresholds present as numbers; a detect range with [max > min]. *)
Lemma sonar_ValidateConfiguration_characterised (configuration : JS.object) :
  SonarSensor.ValidateConfiguration configuration = true
  <-> (JS.lookup configuration "polling_interval" = None
       \/ exists x, JS.lookup configuration "polling_interval" = Some (JS.Num x)
                    /\ PrimFloat.leb 0.25 x = true)
      /\ (JS.lookup configuration "distance_threshold_change_notification" = None
          \/ exists x, JS.lookup configuration "distance_threshold_change_notification"
                       = Some (JS.Num x))
      /\ (exists x, JS.lookup configuration "trigger_out" = Some (JS.Num x))
      /\ (exists x, JS.lookup configuration "echo_in" = Some (JS.Num x))
      /\ (exists lo hi,
            JS.lookup configuration "detect_threshold_min" = Some (JS.Num lo)
            /\ JS.lookup configuration "detect_threshold_max" = Some (JS.Num hi)
            /\ PrimFloat.ltb lo hi = true).
Proof.
  unfold SonarSensor.ValidateConfiguration. cbv zeta.
  rewrite and7.
  rewrite optional_number_at_least, optional_number, !present_number.
  unfold SonarSensor._MINIMUM_SONAR_POLLING_INTERVAL.
  split.
  - intros [P [D [T [E [[lo Lo] [[hi Hi] G]]]]]].
    split; [exact P |]. split; [exact D |]. split; [exact T |]. split; [exact E |].
    exists lo, hi. split; [exact Lo |]. split; [exact Hi |].
    unfold JS.get in G. rewrite Lo, Hi in G. exact G.
  - intros [P [D [T [E [lo [hi [Lo [Hi G]]]]]]]].
    split; [exact P |]. split; [exact D |]. split; [exact T |]. split; [exact E |].
    split; [eauto |]. split; [eauto |].
    unfold JS.get. rewrite Lo, Hi. exact G.
Qed.

(** Without a polling interval the constructor sets the ping period to
    5.0 s, in milliseconds. *)
Lemma sonar_default_polling_interval (t : JS.value -> float) (id : JS.value)
  (configuration : JS.object) :
  JS.lookup configuration "polling_interval" = None ->
  exists s,
    SonarSensor.constructor t id configuration = Normal s
    /\ SonarSensor._sonarPingInterval s = (5.0 * 1000.0)%float.
Proof.
  intros H. eexists. split; [reflexivity |].
  unfold SonarSensor._initialize, SonarSensor.set_Active_false. cbn.
  unfold JS.hasOwnProperty. rewrite H. reflexivity.
Qed.

(** C6 (the code departs from the claim): a configuration whose detect
    range starts below zero and whose change threshold is negative is
    accepted, against the acceptance condition of section 4.1; and for an
    accepted configuration with a polling interval and no change threshold
    the constructor leaves the threshold [undefined] instead of 0.08. *)
Theorem sonar_validation_accepts_below_zero :
  SonarSensor.ValidateConfiguration Sample.sonar_below_zero = true
  /\ ~ Spec.sonar_configuration_accepted Sample.sonar_below_zero
  /\ SonarSensor.ValidateConfiguration Sample.sonar_polled = true
  /\ exists s,
       SonarSensor.constructor Sample.no_text (JS.Str "ranger") Sample.sonar_polled
       = Normal s
       /\ SonarSensor._distanceThreshold s = JS.Undefined.
Proof.
  split; [exact sonar_below_zero_accepted |].
  split.
  - intros [_ [[H | [x [H L]]] _]].
    + vm_compute in H. discriminate.
    + vm_compute in H. inversion H; subst. vm_compute in L. discriminate.
  - split; [vm_compute; reflexivity |].
    eexists. split; [reflexivity |]. vm_compute. reflexivity.
Qed.

Lemma sample_sonar_constructed :
  SonarSensor.constructor Sample.no_text (JS.Str "ranger") Sample.sonar_configuration
  = Normal Sample.sonar.
Proof. vm_compute. reflexivity. Qed.

(** The scenario of section 8: an echo of 2 ms is 0.343 m, inside the
    range 0.10 m to 0.50 m; an echo of 5 ms is 0.8575 m, outside. *)
Lemma sample_sonar_ranges :
  SensorBase.Result
    (SonarSensor.base
       (SonarSensor.sensor
          (SonarSensor._performDistanceMeasurement Sample.no_text 2 2 Sample.sonar_world)))
  = SensorBase.DETECTED
  /\ SensorBase.Result
       (SonarSensor.base
          (SonarSensor.sensor
             (SonarSensor._performDistanceMeasurement Sample.no_text 5 5 Sample.sonar_world)))
     = SensorBase.UNDETECTED.
Proof. split; vm_compute; reflexivity. Qed.

(** C7: the distance kept after a measurement is
    [343.0 * (t / 1000.0) / 2.0] for every elapsed time [t]; the result is
    DETECTED exactly when [min <= distance <= max] (the thresholds read as
    numbers), UNDETECTED otherwise; and a ['result_changed'] notification
    is queued only if the result differs from the one before. *)
Theorem performDistanceMeasurement_classifies (t : JS.value -> float)
  (elapsedTime measurementCompleteTime : float) (w : SonarSensor.World) :
  let w' := SonarSensor._performDistanceMeasurement t elapsedTime measurementCompleteTime w in
  let distance := (343.0 * (elapsedTime / 1000.0) / 2.0)%float in
  let min := JS.ToNumber t (SonarSensor._detectMin (SonarSensor.sensor w)) in
  let max := JS.ToNumber t (SonarSensor._detectMax (SonarSensor.sensor w)) in
  let before := SensorBase.Result (SonarSensor.base (SonarSensor.sensor w)) in
  let after := SensorBase.Result (SonarSensor.base (SonarSensor.sensor w')) in
  SonarSensor._lastDistanceReading (SonarSensor.sensor w') = distance
  /\ (after = SensorBase.DETECTED
      <-> PrimFloat.leb min distance = true /\ PrimFloat.leb distance max = true)
  /\ (after = SensorBase.DETECTED \/ after = SensorBase.UNDETECTED)
  /\ SonarSensor.queued_results w'
     = SonarSensor.queued_results w
       ++ (if SensorBase.SENSOR_RESULT_eqb before after then [] else [(before, after)]).
Proof.
  cbv zeta. unfold SonarSensor._performDistanceMeasurement, SonarSensor.queued_results,
    SensorBase._setResult, SensorBase.Result, JS.num_ge, JS.num_le,
    SonarSensor._NOMINAL_SPEED_OF_SOUND.
  set (distance := (343.0 * (elapsedTime / 1000.0) / 2.0)%float).
  destruct (PrimFloat.leb (JS.ToNumber t (SonarSensor._distanceThreshold (SonarSensor.sensor w)))
              (PrimFloat.abs
                 (distance - SonarSensor._referenceDistanceReading (SonarSensor.sensor w))));
    destruct (PrimFloat.leb (JS.ToNumber t (SonarSensor._detectMin (SonarSensor.sensor w)))
                distance);
    destruct (PrimFloat.leb distance
                (JS.ToNumber t (SonarSensor._detectMax (SonarSensor.sensor w))));
    destruct (SensorBase._result (SonarSensor.base (SonarSensor.sensor w))) eqn:R;
    unfold EventLoop.setTimeout; cbn; rewrite ?flat_map_app; cbn;
    rewrite ?R; cbn; rewrite ?app_nil_r;
    (split; [reflexivity |]);
    (split;
     [split;
      [intros H; try discriminate H; split; reflexivity
      | intros [H1 H2]; try discriminate H1; try discriminate H2; reflexivity] |]);
    (split; [auto |]); reflexivity.
Qed.

Lemma performDistanceMeasurement_classifies_witness :
  SensorBase.Result
    (SonarSensor.base
       (SonarSensor.sensor
          (SonarSensor._performDistanceMeasurement Sample.no_text 2 2 Sample.sonar_world)))
  = SensorBase.DETECTED
  /\ SonarSensor.queued_results
       (SonarSensor._performDistanceMeasurement Sample.no_text 2 2 Sample.sonar_world)
     = [(SensorBase.UNKNOWN, SensorBase.DETECTED)].
Proof.
  destruct (performDistanceMeasurement_classifies Sample.no_text 2 2 Sample.sonar_world)
    as [_ [Detected [_ Published]]].
  split.
  - apply Detected. split; reflexivity.
  - rewrite Published. vm_compute. reflexivity.
Defined.

(* ===================================================================== *)
(** ** Further properties of the door *)
(* ===================================================================== *)

Import DoorTimers.

(** *** At most one watchdog, at most one debounce timer *)

Lemma NoDup_map_filter {A B : Type} (f : A -> B) (p : A -> bool) (xs : list A) :
  NoDup (map f xs) -> NoDup (map f (filter p xs)).
Proof.
  induction xs as [| a r IH]; cbn; intros H; [constructor |].
  inversion H as [| ? ? Hn Hr]; subst.
  destruct (p a); cbn; [constructor |]; auto.
  intros Hin. apply Hn. apply in_map_iff in Hin. destruct Hin as [y [E Hy]].
  apply filter_In in Hy. apply in_map_iff. exists y. tauto.
Qed.

Lemma both_clearTimeout (id : nat) l hw hd :
  both l hw hd -> both (EventLoop.clearTimeout id l) hw hd.
Proof.
  intros [W [N H D]]. split; [apply wf_core_clearTimeout; exact W |].
  split.
  - unfold EventLoop.clearTimeout; cbn. apply NoDup_map_filter. exact N.
  - exact H.
  - intros x Hx. apply in_clearTimeout in Hx. apply D. tauto.
Qed.

Lemma both_clearIfDefined (id : option nat) l hw hd :
  both l hw hd -> both (EventLoop.clearIfDefined id l) hw hd.
Proof. destruct id; cbn; [apply both_clearTimeout | trivial]. Qed.

Lemma both_next (limit : Z) l l' x hw hd :
  both l hw hd -> EventLoop.next limit l = Some (x, l') -> both l' hw hd.
Proof.
  intros [W [N H D]] E. split; [exact (wf_core_next _ _ _ _ _ W E) |].
  pose proof (next_pending _ _ _ _ E) as [_ [En Sub]].
  split.
  - unfold EventLoop.next in E.
    destruct (EventLoop.earliest (EventLoop.pending l)); [| discriminate].
    destruct (EventLoop.due t <=? limit)%Z; [| discriminate].
    inversion E; subst; cbn. apply NoDup_map_filter. exact N.
  - intros i Hi. rewrite En. auto.
  - intros y Hy. apply D. apply Sub. exact Hy.
Qed.

Lemma both_advance (limit : Z) l hw hd :
  both l hw hd -> both (EventLoop.advance limit l) hw hd.
Proof.
  intros [W [N H D]]. split; [apply wf_core_advance; exact W |].
  split; cbn; assumption.
Qed.

Lemma fresh_not_pending l hw (i : nat) :
  wf_core l hw -> EventLoop.nextId l <= i ->
  ~ In i (map (@EventLoop.tid Callback) (EventLoop.pending l)).
Proof.
  intros [F _ _] Hi Hin. apply in_map_iff in Hin. destruct Hin as [x [E Hx]].
  specialize (F x Hx). lia.
Qed.

Lemma NoDup_snoc {A : Type} (xs : list A) (a : A) :
  NoDup xs -> ~ In a xs -> NoDup (xs ++ [a]).
Proof.
  intros N Hn. apply NoDup_app; [exact N | repeat constructor; auto |].
  intros x Hx [E | []]. subst. contradiction.
Qed.

Lemma both_setTimeout (c : Callback) (after : float) l hw hd :
  both l hw hd -> plain c -> both (snd (EventLoop.setTimeout c after l)) hw hd.
Proof.
  intros [W [N H D]] Hc. split.
  - apply wf_core_setTimeout; [exact W |]. destruct c; cbn in *; tauto.
  - split; unfold EventLoop.setTimeout; cbn.
    + rewrite map_app. cbn. apply NoDup_snoc; [exact N |].
      apply (fresh_not_pending l hw); [exact W | lia].
    + intros i Hi. specialize (H i Hi). lia.
    + intros x Hx. apply in_app_or in Hx. destruct Hx as [Hx | [Hx | []]]; [auto |].
      subst x. unfold is_debounce; cbn. split.
      * destruct c; cbn in Hc; try discriminate; contradiction.
      * intros Hh. specialize (H _ Hh). lia.
Qed.

Lemma both_arm_watchdog (s : DOOR_STATE) (after : float) l hw hd :
  both l hw hd ->
  both (snd (EventLoop.setTimeout (updateDoorState s) after
               (EventLoop.clearIfDefined hw l)))
       (Some (EventLoop.nextId (EventLoop.clearIfDefined hw l))) hd.
Proof.
  intros B. split; [apply wf_core_arm; exact (proj1 B) |].
  apply (both_clearIfDefined hw) in B. destruct B as [W [N H D]].
  split; unfold EventLoop.setTimeout; cbn.
  - rewrite map_app. cbn. apply NoDup_snoc; [exact N |].
    apply (fresh_not_pending _ hw); [exact W | lia].
  - intros i Hi. specialize (H i Hi). lia.
  - intros x Hx. apply in_app_or in Hx. destruct Hx as [Hx | [Hx | []]]; [auto |].
    subst x. unfold is_debounce; cbn. split; [discriminate |].
    intros Hh. specialize (H _ Hh). lia.
Qed.

Lemma both_arm_debounce (overrideLock : bool) (after : float) l hw hd :
  both l hw hd ->
  both (snd (EventLoop.setTimeout (doActivateDoor overrideLock) after
               (EventLoop.clearIfDefined hd l)))
       hw (Some (EventLoop.nextId (EventLoop.clearIfDefined hd l))).
Proof.
  intros B. pose proof B as [_ [_ _ D0]].
  apply (both_clearIfDefined hd) in B. destruct B as [W [N H D]].
  assert (En : EventLoop.nextId (EventLoop.clearIfDefined hd l) = EventLoop.nextId l)
    by (destruct hd; reflexivity).
  split.
  - apply wf_core_setTimeout; [exact W | exact I].
  - split; unfold EventLoop.setTimeout; cbn.
    + rewrite map_app. cbn. apply NoDup_snoc; [exact N |].
      apply (fresh_not_pending _ hw); [exact W | lia].
    + intros i Hi. inversion Hi. lia.
    + intros x Hx. apply in_app_or in Hx. destruct Hx as [Hx | [Hx | []]].
      * pose proof (wf_fresh _ _ W x Hx) as F.
        apply in_clearIfDefined in Hx. destruct Hx as [Hx Hn]. split.
        -- intros Hd. exfalso. apply Hn. apply D0; assumption.
        -- intros Hh. inversion Hh. lia.
      * subst x. cbn. split; reflexivity.
Qed.

Lemma tidy_wf (w : World) : tidy w -> wf w.
Proof. intros [W _]. exact W. Qed.

Lemma tidy_updateDoorState (s : DOOR_STATE) (w : World) :
  tidy w -> tidy (_updateDoorState s w).
Proof.
  unfold tidy. intros H. rewrite updateDoorState_loop, updateDoorState_door.
  cbn [_doorActivationWatchdogId _debounceTimerIdDoorCntrl set_currentDoorState].
  apply both_setTimeout; [| exact I]. apply both_clearIfDefined. exact H.
Qed.

Lemma tidy_later (c : Callback) (after : float) (w : World) :
  tidy w -> plain c -> tidy (later c after w).
Proof. unfold tidy, later. cbn. intros H Hc. apply both_setTimeout; assumption. Qed.

Lemma tidy_gpiop_write (channel : JS.value) (value : bool) (w : World) :
  tidy w -> tidy (gpiop_write channel value w).
Proof.
  unfold tidy. destruct (gpiop_write_frame channel value w) as [El [Ed _]].
  rewrite El, Ed. trivial.
Qed.

Lemma tidy_doActivateDoor (overrideLock : bool) (w : World) :
  tidy w -> tidy (_doActivateDoor overrideLock w).
Proof.
  intros H. destruct (may_activate overrideLock (door w)) eqn:E.
  - rewrite (doActivateDoor_accepted _ _ E). unfold tidy in *.
    destruct (gpio_ok w);
      cbn [loop door set_doorActivationWatchdogId _doorActivationWatchdogId
             _debounceTimerIdDoorCntrl].
    + apply both_setTimeout; [| exact I]. apply both_arm_watchdog. exact H.
    + apply both_arm_watchdog. exact H.
  - rewrite (doActivateDoor_refused _ _ E). exact H.
Qed.

Lemma stateChange_manual (channel : JS.value) (value : bool) (w : World) :
  JS.strict_equals channel (_gpioManualCtrlRequest (door w)) = true ->
  let cleared := EventLoop.clearIfDefined (_debounceTimerIdDoorCntrl (door w)) (loop w) in
  _stateChange channel value w
  = set_door (set_debounceTimerIdDoorCntrl (Some (EventLoop.nextId cleared)) (door w))
      (set_loop (snd (EventLoop.setTimeout (doActivateDoor true)
                        _DOOR_CNTRL_SWITCH_DEBOUNCE cleared)) w).
Proof. intros E. unfold _stateChange. rewrite E. reflexivity. Qed.

Lemma stateChange_other (channel : JS.value) (value : bool) (w : World) :
  JS.strict_equals channel (_gpioManualCtrlRequest (door w)) = false ->
  _stateChange channel value w = w.
Proof. intros E. unfold _stateChange. rewrite E. reflexivity. Qed.

Lemma tidy_stateChange (channel : JS.value) (value : bool) (w : World) :
  tidy w -> tidy (_stateChange channel value w).
Proof.
  intros H.
  destruct (JS.strict_equals channel (_gpioManualCtrlRequest (door w))) eqn:E.
  - rewrite (stateChange_manual _ _ _ E). unfold tidy in *.
    cbn [loop door set_door set_loop set_debounceTimerIdDoorCntrl
           _doorActivationWatchdogId _debounceTimerIdDoorCntrl].
    apply both_arm_debounce. exact H.
  - rewrite (stateChange_other _ _ _ E). exact H.
Qed.

Lemma tidy_identify_from (count : nat) (w : World) : tidy w -> tidy (identify_from count w).
Proof.
  unfold identify_from. intros H.
  destruct (Nat.ltb count IDENTIFICATION_TOGGLE_CYCLES).
  - destruct (gpio_ok w); [| exact H].
    apply tidy_later; [| exact I]. apply tidy_gpiop_write. exact H.
  - apply tidy_updateDoorState. exact H.
Qed.

Lemma tidy_Start (w : World) : tidy w -> tidy (Start w).
Proof.
  unfold tidy, Start, gpiop_write. cbn. intros H. destruct (gpio_ok w); cbn; exact H.
Qed.

Lemma tidy_Terminate (w : World) : tidy w -> tidy (Terminate w).
Proof.
  unfold tidy, Terminate, gpiop_write. cbn. intros H.
  destruct (gpio_ok w); cbn;
    destruct (_debounceTimerIdDoorCntrl (door w)) eqn:D; cbn; rewrite ?D; try exact H;
    apply both_clearTimeout; exact H.
Qed.

Lemma tidy_sensor_setResult (which : SensorFunction) (r : SensorBase.SENSOR_RESULT)
  (w : World) : tidy w -> tidy (sensor_setResult which r w).
Proof.
  unfold sensor_setResult. intros H.
  destruct (SensorBase._setResult r _) as [b [[o n] |]];
    [apply tidy_later; [| exact I] |]; destruct which; exact H.
Qed.

Lemma tidy_fire (c : Callback) (w : World) : tidy w -> tidy (fire c w).
Proof.
  intros H. destruct c; cbn [fire].
  - apply tidy_doActivateDoor; exact H.
  - apply tidy_updateDoorState; exact H.
  - apply tidy_gpiop_write; exact H.
  - exact H.
  - destruct (sensors_registered w); [apply tidy_updateDoorState |]; exact H.
  - apply tidy_identify_from; exact H.
Qed.

Lemma tidy_deliver (i : Input) (w : World) : tidy w -> tidy (deliver i w).
Proof.
  intros H. destruct i; cbn [deliver].
  - unfold gpio_change. destruct (change_registered w); [| exact H].
    apply tidy_stateChange; exact H.
  - apply tidy_sensor_setResult; exact H.
  - apply tidy_doActivateDoor; exact H.
  - unfold IdentifyDoor. destruct (Initialized (door w)); [| exact H].
    apply tidy_identify_from; exact H.
  - unfold tidy, DoorLocked_set in *. cbn.
    destruct (JS.typeof_is locked "boolean"); exact H.
  - apply tidy_Start; exact H.
  - apply tidy_Terminate; exact H.
Qed.

Lemma tidy_step (limit : Z) (x : EventLoop.Timer Callback) (l : EventLoop.t Callback)
  (w : World) :
  tidy w -> EventLoop.next limit (loop w) = Some (x, l) ->
  tidy (fire (EventLoop.cb x) (set_loop l w)).
Proof.
  intros H N. apply tidy_fire. exact (both_next _ _ _ _ _ _ H N).
Qed.

Lemma tidy_run (fuel : nat) (limit : Z) (w v : World) :
  tidy w -> run fuel limit w = Some v -> tidy v.
Proof.
  revert w. induction fuel as [| fuel IH]; cbn; intros w H E; [discriminate |].
  destruct (EventLoop.next limit (loop w)) as [[x l] |] eqn:N.
  - exact (IH _ (tidy_step _ _ _ _ H N) E).
  - inversion E; subst. unfold tidy; cbn. apply both_advance. exact H.
Qed.

Lemma constructor_no_debounce (t : JS.value -> float) (configuration : JS.object)
  (d : Door) :
  DoorController.constructor t configuration = Normal d ->
  _debounceTimerIdDoorCntrl d = None.
Proof.
  unfold DoorController.constructor.
  destruct (configValid configuration); cbn [negb]; [| discriminate].
  destruct (_createDetectionSensor t _ "OPEN"); [| discriminate].
  destruct (_createDetectionSensor t _ "CLOSE"); [| discriminate].
  intros H. inversion H; subst. reflexivity.
Qed.

Lemma reachable_tidy (t : JS.value -> float) (w : World) : reachable t w -> tidy w.
Proof.
  induction 1 as [configuration d time ok C | i w R IH | limit x l w R IH N].
  - split.
    + exact (reachable_wf t _ (reach_new t configuration d time ok C)).
    + cbn. rewrite (constructor_no_debounce _ _ _ C). split; cbn.
      * constructor.
      * intros i Hi; discriminate.
      * intros x [].
  - apply tidy_deliver; exact IH.
  - exact (tidy_step _ _ _ _ IH N).
Qed.

Lemma same_handle_one {A : Type} (f : A -> nat) (xs : list A) (i : nat) :
  NoDup (map f xs) -> (forall x, In x xs -> f x = i) -> List.length xs <= 1.
Proof.
  destruct xs as [| a [| b r]]; cbn; intros N H; try lia.
  exfalso. inversion N as [| ? ? Hn _]; subst. apply Hn.
  rewrite (H a), <- (H b); auto. left; reflexivity.
Qed.

(** X1: in every world a door can be in, at most one activation watchdog
    and at most one debounce timer of the manual request are armed, and
    each is the timer the door's handle names. *)
Theorem reachable_single_timers (t : JS.value -> float) (w : World) :
  reachable t w ->
  List.length (watchdogs w) <= 1
  /\ List.length (debounces w) <= 1
  /\ (forall x, In x (watchdogs w) ->
                _doorActivationWatchdogId (door w) = Some (EventLoop.tid x))
  /\ (forall x, In x (debounces w) ->
                _debounceTimerIdDoorCntrl (door w) = Some (EventLoop.tid x)).
Proof.
  intros R. destruct (reachable_tidy t w R) as [[F Hw W] [N Hd D]].
  assert (Wd : forall x, In x (watchdogs w) ->
                         _doorActivationWatchdogId (door w) = Some (EventLoop.tid x)).
  { intros x Hx. apply filter_In in Hx. destruct Hx as [Hx Hb]. apply W; assumption. }
  assert (Db : forall x, In x (debounces w) ->
                         _debounceTimerIdDoorCntrl (door w) = Some (EventLoop.tid x)).
  { intros x Hx. apply filter_In in Hx. destruct Hx as [Hx Hb]. apply D; assumption. }
  split; [| split; [| split; assumption]].
  - destruct (_doorActivationWatchdogId (door w)) as [i |] eqn:E.
    + apply (same_handle_one (@EventLoop.tid Callback) _ i).
      * apply NoDup_map_filter. exact N.
      * intros x Hx. specialize (Wd x Hx). congruence.
    + destruct (watchdogs w) as [| x r]; cbn; [lia |].
      specialize (Wd x (or_introl eq_refl)). discriminate.
  - destruct (_debounceTimerIdDoorCntrl (door w)) as [i |] eqn:E.
    + apply (same_handle_one (@EventLoop.tid Callback) _ i).
      * apply NoDup_map_filter. exact N.
      * intros x Hx. specialize (Db x Hx). congruence.
    + destruct (debounces w) as [| x r]; cbn; [lia |].
      specialize (Db x (or_introl eq_refl)). discriminate.
Qed.

Lemma sample_started_reachable : reachable Sample.no_text Sample.started.
Proof.
  exact (reach_input Sample.no_text call_Start _
           (reach_new Sample.no_text Sample.door_configuration Sample.door 0 true
              sample_door_constructed)).
Qed.

Lemma sample_activated_reachable :
  reachable Sample.no_text (deliver call_ActivateDoor Sample.started).
Proof. apply reach_input. exact sample_started_reachable. Qed.

Lemma reachable_single_timers_witness :
  List.length (watchdogs (deliver call_ActivateDoor Sample.started)) <= 1
  /\ List.length (debounces (deliver call_ActivateDoor Sample.started)) <= 1.
Proof.
  destruct (reachable_single_timers Sample.no_text
              (deliver call_ActivateDoor Sample.started) sample_activated_reachable)
    as [W [D _]].
  split; [exact W | exact D].
Defined.

(** *** The manual request *)

Lemma debounces_cleared (l : EventLoop.t Callback) (h : option nat) :
  db_core l h ->
  filter is_debounce (EventLoop.pending (EventLoop.clearIfDefined h l)) = [].
Proof.
  intros [N H D]. apply no_member_nil. intros x Hx.
  apply filter_In in Hx. destruct Hx as [Hx Hd].
  apply in_clearIfDefined in Hx. destruct Hx as [Hx Hn].
  apply Hn. apply D; assumption.
Qed.

Lemma last_cons {A : Type} (a d : A) (r : list A) : last (a :: r) d = last r a.
Proof.
  revert a d. induction r as [| b r IH]; intros a d; [reflexivity |].
  change (last (a :: b :: r) d) with (last (b :: r) d).
  rewrite (IH b d), (IH b a). reflexivity.
Qed.

Lemma burst_from (ch : JS.value) (d : Door) (rest : list Z) :
  _gpioManualCtrlRequest d = ch ->
  JS.strict_equals ch ch = true ->
  forall (t : Z) (id n : nat) (g : bool) (wr : list (JS.value * bool)) (sr : bool)
         (nt : list (DOOR_STATE * DOOR_STATE)),
    within 500 t rest ->
    exists id' n',
      trace 1 (map (fun time => (time, gpio_event ch true)) rest)
        (mkWorld (EventLoop.mk t n [EventLoop.mkTimer id (t + 500)%Z (doActivateDoor true)])
           (set_debounceTimerIdDoorCntrl (Some id) d) g wr true sr nt)
      = Some (mkWorld
                (EventLoop.mk (last rest t) n'
                   [EventLoop.mkTimer id' (last rest t + 500)%Z (doActivateDoor true)])
                (set_debounceTimerIdDoorCntrl (Some id') d) g wr true sr nt).
Proof.
  intros Hch Heq. induction rest as [| t' r IH]; intros t id n g wr sr nt Hw.
  - exists id, n. reflexivity.
  - destruct Hw as [[Hle Hlt] Hw]. rewrite last_cons.
    destruct (IH t' n (S n) g wr sr nt Hw) as [id' [n' E]].
    exists id', n'. rewrite <- E. clear E IH.
    cbn [map trace]. rewrite run_S.
    unfold EventLoop.next. cbn -[Z.add Z.leb]. 
    replace (t + 500 <=? t')%Z with false by (symmetry; apply Z.leb_gt; lia).
    cbn [deliver]. unfold gpio_change. cbn [change_registered set_loop].
    f_equal. unfold _stateChange.
    cbn [door set_loop set_debounceTimerIdDoorCntrl _gpioManualCtrlRequest].
    rewrite Hch, Heq.
    unfold EventLoop.clearIfDefined, EventLoop.clearTimeout, EventLoop.setTimeout,
      EventLoop.advance, set_door, set_loop, set_debounceTimerIdDoorCntrl.
    cbn -[Z.add Z.max EventLoop.msecs]. rewrite Nat.eqb_refl. cbn -[Z.add Z.max EventLoop.msecs].
    unfold _DOOR_CNTRL_SWITCH_DEBOUNCE. rewrite (proj2 (proj2 (proj2 msecs_literals))).
    replace (Z.max t t') with t' by lia. reflexivity.
Qed.

Lemma debounce_fires (d : Door) (t : Z) (id n : nat) (g : bool)
  (wr : list (JS.value * bool)) (cr sr : bool) (nt : list (DOOR_STATE * DOOR_STATE)) :
  Initialized d = true ->
  exists v,
    run 2 (t + 500)
      (mkWorld (EventLoop.mk t n [EventLoop.mkTimer id (t + 500)%Z (doActivateDoor true)])
         (set_debounceTimerIdDoorCntrl (Some id) d) g wr cr sr nt)
    = Some v
    /\ debounces v = []
    /\ watchdogs v
       = [EventLoop.mkTimer n (t + 30500)%Z (updateDoorState (DoorState d))]
    /\ written v = (if g then wr ++ [(_gpioChanCtrlRequest d, false)] else wr)
    /\ notified v = nt
    /\ DoorState (door v) = DoorState d.
Proof.
  intros Hi.
  assert (E : forall g',
    may_activate true (door (mkWorld (EventLoop.mk (t + 500) n [])
      (set_debounceTimerIdDoorCntrl (Some id) d) g' wr cr sr nt)) = true).
  { intros g'. unfold may_activate. cbn [door].
    destruct d; cbn in Hi |- *. rewrite Hi. apply orb_true_r. }
  rewrite run_S. unfold EventLoop.next. cbn -[Z.add Z.leb run].
  rewrite Z.leb_refl. cbn [fire EventLoop.cb].
  replace (Z.max t (t + 500)) with (t + 500)%Z by lia.
  unfold set_loop at 1. cbn [door gpio_ok written change_registered sensors_registered notified].
  rewrite Nat.eqb_refl. cbn [negb].
  rewrite (doActivateDoor_accepted true _ (E g)).
  cbn [door loop gpio_ok written change_registered sensors_registered notified].
  assert (C : EventLoop.clearIfDefined
                (_doorActivationWatchdogId (set_debounceTimerIdDoorCntrl (Some id) d))
                (EventLoop.mk (t + 500) n ([] : list (EventLoop.Timer Callback)))
              = EventLoop.mk (t + 500) n []).
  { destruct (_doorActivationWatchdogId _); reflexivity. }
  rewrite C. clear C E.
  destruct d as [nm ind rel man os cs cur tgt lk db wd ini].
  destruct g; (eexists; split; [eval_run; reflexivity |]);
    cbv -[Z.add app]; (replace (t + 500 + 30000)%Z with (t + 30500)%Z by lia);
    repeat split.
Qed.

(** X2: presses of the manual button that follow one another by less than
    the 500 ms debounce time are one request.  On an initialized door with
    an idle event loop, nothing is written and no watchdog is armed while
    the presses arrive; 500 ms after the last one the door is activated
    once, whatever the lock says: the relay line is written low (when the
    write is accepted) and one watchdog is armed for the 30 s that follow. *)
Theorem manual_presses_coalesce (w : World) (first : Z) (rest : list Z) :
  EventLoop.pending (loop w) = [] ->
  change_registered w = true ->
  Initialized (door w) = true ->
  JS.strict_equals (_gpioManualCtrlRequest (door w)) (_gpioManualCtrlRequest (door w)) = true ->
  (EventLoop.now (loop w) <= first)%Z ->
  within 500 first rest ->
  exists v v' id,
    trace 1 (presses (first :: rest) w) w = Some v
    /\ written v = written w
    /\ watchdogs v = []
    /\ List.length (debounces v) = 1
    /\ run 2 (last rest first + 500) v = Some v'
    /\ written v'
       = (if gpio_ok w
          then written w ++ [(_gpioChanCtrlRequest (door w), false)]
          else written w)
    /\ watchdogs v'
       = [EventLoop.mkTimer id (last rest first + 30500)%Z
            (updateDoorState (DoorState (door w)))]
    /\ debounces v' = []
    /\ notified v' = notified w.
Proof.
  destruct w as [[t0 n p] d g wr cr sr nt].
  cbn [loop door EventLoop.pending EventLoop.now change_registered gpio_ok written notified].
  intros Hp Hc Hi Heq Hle Hw. subst p cr.
  destruct (burst_from (_gpioManualCtrlRequest d) d rest eq_refl Heq
              first n (S n) g wr sr nt Hw) as [id' [n' E]].
  destruct (debounce_fires d (last rest first) id' n' g wr true sr nt Hi)
    as [v' [R [Hd [Hwd [Hwr [Hnt _]]]]]].
  eexists. exists v', n'.
  split.
  { unfold presses. cbn [map trace door]. rewrite run_S.
    unfold EventLoop.next. cbn -[Z.add Z.leb Z.max].
    cbn [deliver]. unfold gpio_change. cbn [change_registered set_loop].
    unfold _stateChange. cbn [door set_loop]. rewrite Heq.
    unfold EventLoop.clearIfDefined, EventLoop.clearTimeout, EventLoop.setTimeout,
      EventLoop.advance, set_door, set_loop.
    destruct (_debounceTimerIdDoorCntrl d);
      cbn -[Z.add Z.max EventLoop.msecs set_debounceTimerIdDoorCntrl];
      unfold _DOOR_CNTRL_SWITCH_DEBOUNCE;
      rewrite (proj2 (proj2 (proj2 msecs_literals)));
      (replace (Z.max t0 first) with first by lia); exact E. }
  cbn [written loop door].
  split; [reflexivity |].
  split; [reflexivity |].
  split; [reflexivity |].
  split; [exact R |].
  split; [exact Hwr |].
  split; [exact Hwd |].
  split; [exact Hd | exact Hnt].
Qed.

Lemma manual_presses_coalesce_witness :
  exists v v' id,
    trace 1 (presses [1000; 1200; 1650]%Z Sample.locked) Sample.locked = Some v
    /\ written v = written Sample.locked
    /\ watchdogs v = []
    /\ List.length (debounces v) = 1
    /\ run 2 2150 v = Some v'
    /\ written v'
       = written Sample.locked ++ [(_gpioChanCtrlRequest (door Sample.locked), false)]
    /\ watchdogs v'
       = [EventLoop.mkTimer id 32150%Z (updateDoorState (DoorState (door Sample.locked)))]
    /\ debounces v' = []
    /\ notified v' = notified Sample.locked.
Proof.
  apply (manual_presses_coalesce Sample.locked 1000 [1200; 1650]%Z);
    try (vm_compute; reflexivity).
  - vm_compute. discriminate.
  - cbn. lia.
Defined.

(** *** A terminated door *)



























(** *** Construction of a door *)

Lemma identify_fst (key : string) (m : required) :
  fst (identify key m) = true -> fst m = true \/ key = "OPEN"%string.
Proof.
  unfold identify. destruct (String.eqb_spec key "OPEN"); [auto |].
  destruct (String.eqb key "CLOSE"); cbn; auto.
Qed.

Lemma identify_snd (key : string) (m : required) :
  snd (identify key m) = true -> snd m = true \/ key = "CLOSE"%string.
Proof.
  unfold identify. destruct (String.eqb key "OPEN"); [cbn; auto |].
  destruct (String.eqb_spec key "CLOSE"); cbn; auto.
Qed.

Lemma validate_item_true (configItem : JS.value) (m m' : required) :
  validate_item configItem m = (true, m') ->
  (JS.strict_equals (JS.get (config_of configItem) "class") (JS.Str "SonarSensor") = true
   \/ JS.strict_equals (JS.get (config_of configItem) "class")
        (JS.Str "ProximitySwitchSensor") = true)
  /\ m' = identify (JS.toUpperCase (text_of (JS.get (config_of configItem) "function"))) m.
Proof.
  unfold validate_item. destruct configItem as [| | | | | item |]; try discriminate.
  cbn [config_of].
  match goal with |- (if ?c then _ else _) = _ -> _ => destruct c end; [| discriminate].
  destruct (JS.strict_equals (JS.get item "class") (JS.Str "SonarSensor")) eqn:S.
  - match goal with |- (if ?c then _ else _) = _ -> _ => destruct c end; [| discriminate].
    intros H; inversion H; auto.
  - destruct (JS.strict_equals (JS.get item "class") (JS.Str "ProximitySwitchSensor")) eqn:P.
    + match goal with |- (if ?c then _ else _) = _ -> _ => destruct c end; [| discriminate].
      intros H; inversion H; auto.
    + intros H; inversion H.
Qed.

Lemma createDetectionSensor_validated (t : JS.value -> float)
  (configuration : list JS.value) (sensor_function : string) :
  forall m m' : required,
    every_item configuration m = (true, m') ->
    (fst m' = true /\ fst m = false /\ sensor_function = "OPEN"%string)
    \/ (snd m' = true /\ snd m = false /\ sensor_function = "CLOSE"%string) ->
    exists s,
      _createDetectionSensor t configuration sensor_function = Normal s
      /\ sensor_Result s = SensorBase.UNKNOWN.
Proof.
  induction configuration as [| configItem rest IH]; cbn [every_item _createDetectionSensor];
    intros m m' E H.
  - inversion E; subst. destruct H as [[H1 [H2 _]] | [H1 [H2 _]]]; congruence.
  - destruct (validate_item configItem m) as [ok m1] eqn:V.
    destruct ok; [| discriminate].
    destruct (validate_item_true _ _ _ V) as [C Em1].
    destruct (String.eqb_spec
                (JS.toUpperCase (text_of (JS.get (config_of configItem) "function")))
                (JS.toUpperCase sensor_function)) as [F | F].
    + destruct (JS.strict_equals (JS.get (config_of configItem) "class")
                  (JS.Str "SonarSensor")) eqn:S.
      * eexists. split; reflexivity.
      * destruct C as [C | C]; [discriminate |]. rewrite C.
        eexists. split; reflexivity.
    + apply (IH m1 m' E).
      destruct H as [[H1 [H2 H3]] | [H1 [H2 H3]]]; [left | right];
        (split; [exact H1 |]); (split; [| exact H3]); subst m1 sensor_function.
      * destruct (fst (identify _ m)) eqn:I; [| reflexivity].
        apply identify_fst in I. destruct I as [I | I]; [congruence |].
        exfalso. apply F. rewrite I. reflexivity.
      * destruct (snd (identify _ m)) eqn:I; [| reflexivity].
        apply identify_snd in I. destruct I as [I | I]; [congruence |].
        exfalso. apply F. rewrite I. reflexivity.
Qed.

(** X4: a configuration that passes the validity test of the constructor
    always gives a door: both detection sensors are found and built (the
    search for ['OPEN'] and ['CLOSE'] agrees with the validation on upper
    case and on the sensor classes), so neither [_createDetectionSensor]
    throws.  The new door is uninitialized, its state and the results of
    both sensors are UNKNOWN, no timer handle is set, and it is locked
    unless [soft_locked] says otherwise. *)
Theorem valid_configuration_constructs (t : JS.value -> float)
  (configuration : JS.object) :
  configValid configuration = true ->
  exists d,
    DoorController.constructor t configuration = Normal d
    /\ DoorState d = UNKNOWN
    /\ Initialized d = false
    /\ sensor_Result (_openSensor d) = SensorBase.UNKNOWN
    /\ sensor_Result (_closedSensor d) = SensorBase.UNKNOWN
    /\ _determineDoorState d = UNKNOWN
    /\ _debounceTimerIdDoorCntrl d = None
    /\ _doorActivationWatchdogId d = None
    /\ DoorLocked d
       = (if JS.hasOwnProperty configuration "soft_locked"
          then JS.get configuration "soft_locked" else JS.Bool true).
Proof.
  intros V. unfold DoorController.constructor. rewrite V. cbn [negb].
  unfold configValid in V. apply andb_prop in V. destruct V as [_ V].
  destruct (JS.get configuration "detect_sensors") as [| | | | | | items];
    try discriminate.
  unfold _validateDetectionSensorConfig in V.
  destruct (every_item items (false, false)) as [ok m] eqn:E.
  apply andb_prop in V. destruct V as [V Hc].
  apply andb_prop in V. destruct V as [V Ho]. subst ok.
  destruct (createDetectionSensor_validated t items "OPEN" _ _ E) as [o [Co Ro]];
    [left; auto |].
  destruct (createDetectionSensor_validated t items "CLOSE" _ _ E) as [c [Cc Rc]];
    [right; auto |].
  rewrite Co, Cc. eexists. split; [reflexivity |].
  cbn [DoorState Initialized _currentDoorState _initialized _openSensor _closedSensor
       _debounceTimerIdDoorCntrl _doorActivationWatchdogId DoorLocked _doorLocked].
  repeat (split; [first [reflexivity | assumption] |]).
  split; [| repeat split].
  unfold _determineDoorState. cbn [_openSensor _closedSensor]. rewrite Ro, Rc. reflexivity.
Qed.

Lemma valid_configuration_constructs_witness :
  exists d,
    DoorController.constructor Sample.no_text Sample.door_configuration = Normal d
    /\ DoorState d = UNKNOWN
    /\ Initialized d = false
    /\ sensor_Result (_openSensor d) = SensorBase.UNKNOWN
    /\ sensor_Result (_closedSensor d) = SensorBase.UNKNOWN
    /\ _determineDoorState d = UNKNOWN
    /\ _debounceTimerIdDoorCntrl d = None
    /\ _doorActivationWatchdogId d = None
    /\ DoorLocked d = JS.Bool false.
Proof.
  apply (valid_configuration_constructs Sample.no_text Sample.door_configuration).
  vm_compute. reflexivity.
Defined.

Import DoorConfig.

Lemma validate_item_verdict (configItem : JS.value) (m : required) :
  validate_item configItem m
  = (item_valid configItem,
     if item_valid configItem
     then identify (JS.toUpperCase (text_of (JS.get (config_of configItem) "function"))) m
     else m).
Proof.
  unfold item_valid, validate_item.
  destruct configItem as [| | | | | item |]; try reflexivity.
  cbn [config_of].
  repeat match goal with
         | |- context [if ?c then _ else _] =>
             match c with
             | context [if _ then _ else _] => fail 1
             | _ => destruct c; cbn [fst]
             end
         | |- context [match ?c with _ => _ end] =>
             match type of c with
             | JS.value => destruct c; cbn [fst]
             end
         end; reflexivity.
Qed.

Lemma every_item_fold (configuration : list JS.value) :
  forall m : required,
    every_item configuration m
    = (forallb item_valid configuration,
       snd (every_item configuration m))
    /\ (forallb item_valid configuration = true ->
        snd (every_item configuration m)
        = (fst m || existsb (has_function "OPEN") configuration,
           snd m || existsb (has_function "CLOSE") configuration)).
Proof.
  induction configuration as [| configItem rest IH]; intros m; cbn [every_item forallb existsb].
  - split; [reflexivity |]. intros _. cbn. rewrite !orb_false_r. destruct m; reflexivity.
  - rewrite validate_item_verdict. destruct (item_valid configItem); cbn [andb].
    + destruct (IH (identify (JS.toUpperCase
                       (text_of (JS.get (config_of configItem) "function"))) m))
        as [E F].
      split; [exact E |]. intros V. rewrite (F V). clear E F IH.
      unfold has_function, identify.
      destruct (String.eqb _ "OPEN") eqn:O; cbn [fst snd orb].
      * rewrite orb_true_r. 
        destruct (String.eqb _ "CLOSE") eqn:C; [| reflexivity].
        apply String.eqb_eq in O. apply String.eqb_eq in C. congruence.
      * destruct (String.eqb _ "CLOSE"); cbn [fst snd orb];
          rewrite ?orb_true_r; reflexivity.
    + split; [reflexivity | discriminate].
Qed.

(** X5: [_validateDetectionSensorConfig], which walks the items with
    [every] and records the functions it meets in a map, accepts a list
    exactly when every item is valid, some item is an ['OPEN'] sensor and
    some item a ['CLOSE'] sensor, the function compared in upper case; the
    verdict on an item does not depend on the items before it. *)
Theorem validateDetectionSensorConfig_itemwise (configuration : list JS.value) :
  _validateDetectionSensorConfig configuration = sensors_valid configuration
  /\ (forall configItem m,
        In configItem configuration ->
        fst (validate_item configItem m) = item_valid configItem).
Proof.
  split.
  - unfold _validateDetectionSensorConfig, sensors_valid.
    destruct (every_item_fold configuration (false, false)) as [E F].
    rewrite E. destruct (forallb item_valid configuration); [| reflexivity].
    rewrite (F eq_refl). reflexivity.
  - intros configItem m _. rewrite validate_item_verdict. reflexivity.
Qed.
